(** * myDiary backend (index.js): diary normalisation, store and sign-up

    A shallow embedding of the Express handlers of [index.js] and of the
    helpers they share, with the properties of the specification proved
    about them.

    - JavaScript strings are sequences of UTF-16 code units: [list N].
    - JSON request bodies are values of [JsVal]; a number is an IEEE 754
      double, [spec_float].
    - The three process-wide [Map]s and the member counter form [State];
      every handler is a function [State -> ... -> State * Response].
    - [diaryByDate] is iterated by [getHaveArrays], so it is kept as an
      insertion-ordered association list, the order a JavaScript [Map]
      iterates in; [membersByEmail] and [loginState] are only looked up and
      are finite maps. *)

From Stdlib Require Import ZArith NArith SpecFloat.
From stdpp Require Import gmap list sorting strings lexico.

Open Scope Z_scope.

(** ** Strings *)

(** A string literal of the source, as code units (ASCII literals only). *)
Definition lit (s : string) : list N :=
  Ascii.N_of_ascii <$> String.list_ascii_of_string s.

(** ECMAScript [WhiteSpace] and [LineTerminator] code points: what
    [String.prototype.trim] strips. *)
Definition is_white_space (c : N) : bool :=
  ((9 <=? c) && (c <=? 13)            (* TAB LF VT FF CR *)
   || (c =? 32) || (c =? 160)         (* SP NBSP *)
   || (c =? 5760)                     (* U+1680 *)
   || (8192 <=? c) && (c <=? 8202)    (* U+2000 .. U+200A *)
   || (c =? 8232) || (c =? 8233)      (* U+2028 LS, U+2029 PS *)
   || (c =? 8239) || (c =? 8287)      (* U+202F, U+205F *)
   || (c =? 12288) || (c =? 65279))%N (* U+3000, U+FEFF *).

Fixpoint trimStart (s : list N) : list N :=
  match s with
  | [] => []
  | c :: r => if is_white_space c then trimStart r else s
  end.

Fixpoint trimEnd (s : list N) : list N :=
  match s with
  | [] => []
  | c :: r =>
      match trimEnd r with
      | [] => if is_white_space c then [] else [c]
      | r' => c :: r'
      end
  end.

(** [s.trim()] *)
Definition trim (s : list N) : list N := trimEnd (trimStart s).

(** [s.split(sep)] for a one-unit separator; the empty string splits into
    one empty piece. *)
Fixpoint split (sep : N) (s : list N) : list (list N) :=
  match s with
  | [] => [[]]
  | c :: r =>
      if (c =? sep)%N then [] :: split sep r
      else match split sep r with
           | [] => [[c]]
           | p :: ps => (c :: p) :: ps
           end
  end.

(** [pieces.join(sep)], the inverse of [split]. *)
Fixpoint join (sep : N) (ps : list (list N)) : list N :=
  match ps with
  | [] => []
  | [p] => p
  | p :: ps' => p ++ sep :: join sep ps'
  end.

Definition comma : N := 44.
Definition hyphen : N := 45.

(** [\d] *)
Definition is_digit (c : N) : bool := ((48 <=? c) && (c <=? 57))%N.

(** [/^\d{4}-\d{2}-\d{2}$/.test(s)] *)
Definition date_re_test (s : list N) : bool :=
  match s with
  | [y1; y2; y3; y4; h1; m1; m2; h2; d1; d2] =>
      is_digit y1 && is_digit y2 && is_digit y3 && is_digit y4
      && (h1 =? hyphen)%N && is_digit m1 && is_digit m2
      && (h2 =? hyphen)%N && is_digit d1 && is_digit d2
  | _ => false
  end.

(** The order of the default [Array.prototype.sort] comparator on strings:
    code unit by code unit, a proper prefix first. *)
Fixpoint str_ltb (a b : list N) : bool :=
  match a, b with
  | _, [] => false
  | [], _ :: _ => true
  | x :: a', y :: b' =>
      if (x <? y)%N then true
      else if (y <? x)%N then false
      else str_ltb a' b'
  end.

Definition str_le (a b : list N) : Prop := str_ltb b a = false.

#[global] Instance str_le_dec : RelDecision str_le.
Proof. intros a b. unfold str_le. apply _. Defined.

(** ** Values *)

#[warnings="-register-all"]
Inductive JsVal : Type :=
| VUndefined
| VNull
| VBool (b : bool)
| VNum (x : spec_float)
| VStr (s : list N)
| VArr (xs : list JsVal)
| VObj (fields : list (list N * JsVal)).

(** Truthiness, as [||] and [!] test it. *)
Definition truthy (v : JsVal) : bool :=
  match v with
  | VUndefined | VNull => false
  | VBool b => b
  | VNum (S754_zero _ | S754_nan) => false
  | VNum _ => true
  | VStr s => negb (bool_decide (s = []))
  | VArr _ | VObj _ => true
  end.

(** [a || b] *)
Definition js_or (a b : JsVal) : JsVal := if truthy a then a else b.

Fixpoint assoc (k : list N) (fields : list (list N * JsVal)) : JsVal :=
  match fields with
  | [] => VUndefined
  | (k', v) :: r => if decide (k = k') then v else assoc k r
  end.

(** Property read [v.k], as the destructuring [const { k } = v] does it, for
    the property names of the handlers ([todo], [contents], [email], ...):
    none of them is defined on the prototypes of arrays, strings, numbers
    or booleans. *)
Definition get_prop (v : JsVal) (k : string) : JsVal :=
  match v with
  | VObj fields => assoc (lit k) fields
  | _ => VUndefined
  end.

(** A JavaScript array of strings as a value. *)
Definition str_array (items : list (list N)) : JsVal := VArr (VStr <$> items).

(** ** Helpers *)

Definition isValidString (v : JsVal) : bool :=
  match v with
  | VStr s => bool_decide (0 < length (trim s))%nat
  | _ => false
  end.

(** [null] is [None]. *)
Definition normalizeDate (date : JsVal) : option (list N) :=
  if negb (isValidString date) then None
  else match date with
       | VStr d =>
           let s := trim d in
           let ok := date_re_test s in
           if ok then Some s else None
       | _ => None
       end.

Definition normalizeTodo (todo : JsVal) : list (list N) :=
  match todo with
  | VArr xs =>
      filter (λ x, 0 < length x)%nat
        ((λ x, match x with VStr s => trim s | _ => [] end) <$> xs)
  | VStr s =>
      filter (λ x, 0 < length x)%nat (trim <$> split comma s)
  | _ => []
  end.

(** [v === undefined] *)
Definition is_undefined (v : JsVal) : bool :=
  match v with VUndefined => true | _ => false end.

(** The code units of a value that a [typeof v === "string"] guard has
    already let through, so that [v.trim()] is [trim (str_of v)]. *)
Definition str_of (v : JsVal) : list N :=
  match v with VStr s => s | _ => [] end.

(** [Array.isArray(v) && v.length > 0] *)
Definition nonEmptyArray (v : JsVal) : bool :=
  match v with
  | VArr xs => bool_decide (0 < length xs)%nat
  | _ => false
  end.

(** ** In-memory "DB" *)

Module Member.
(** [{ memberId, name, email, password }]; [password] is [null] ([None])
    for accounts created by the Google login. [memberId] is a JavaScript
    number that only ever counts up from 1 by one; it is exact, and so an
    integer, below 2^53. *)
Record t := { memberId : Z; name : list N; email : list N;
              password : option (list N) }.
End Member.

Module Entry.
(** [{ todo, contents, thanks }]: fields are dynamically typed. *)
Record t := { todo : JsVal; contents : JsVal; thanks : JsVal }.
End Entry.

Record State := {
  nextMemberId : Z;
  membersByEmail : gmap (list N) Member.t;
  loginState : gmap (list N) Z;
  diaryByDate : list (list N * Entry.t)
}.

Definition init : State :=
  {| nextMemberId := 1; membersByEmail := ∅; loginState := ∅;
     diaryByDate := [] |}.

(** [Map.prototype.get] and [Map.prototype.set] on the insertion-ordered
    [diaryByDate]: setting a present key keeps its position. *)
Fixpoint map_get (k : list N) (m : list (list N * Entry.t)) : option Entry.t :=
  match m with
  | [] => None
  | (k', v) :: r => if decide (k = k') then Some v else map_get k r
  end.

Fixpoint map_set (k : list N) (v : Entry.t) (m : list (list N * Entry.t))
  : list (list N * Entry.t) :=
  match m with
  | [] => [(k, v)]
  | (k', v') :: r =>
      if decide (k = k') then (k, v) :: r else (k', v') :: map_set k v r
  end.

Definition set_diary (st : State) (d : list (list N * Entry.t)) : State :=
  {| nextMemberId := nextMemberId st; membersByEmail := membersByEmail st;
     loginState := loginState st; diaryByDate := d |}.

(** The entry [GET] and [PUT] fall back to. *)
Definition empty_entry : Entry.t :=
  {| Entry.todo := VArr []; Entry.contents := VStr []; Entry.thanks := VStr [] |}.

(** [sort()] with the default comparator. The specification of
    [Array.prototype.sort] fixes the result, not the algorithm: for a total
    order on distinct strings it is the one sorted permutation. *)
Definition sort (l : list (list N)) : list (list N) := merge_sort str_le l.

Definition getHaveArrays (diary : list (list N * Entry.t))
  : list (list N) * list (list N) :=
  let '(haveContents, haveTodos) :=
    foldl (λ '(haveContents, haveTodos) '(date, entry),
             (if isValidString (Entry.contents entry)
              then haveContents ++ [date] else haveContents,
              if nonEmptyArray (Entry.todo entry)
              then haveTodos ++ [date] else haveTodos))
          ([], []) diary in
  (sort haveContents, sort haveTodos).

(** ** Responses *)

Inductive Payload :=
| POk (message : string)                         (* { ok: true, message } *)
| PError (error : string)                        (* { error } *)
| PLoginError (error : string) (isLogined : Z)   (* { error, isLogined } *)
| PMessage (message : list N) (detail : option JsVal) (* { message [, detail] } *)
| PMember (memberId : Z) (name email : list N)   (* { memberId, name, email } *)
| PLogin (message : list N) (isLogined : Z)      (* { message, isLogined } *)
| PGoogle (message : list N) (isLogined : Z) (memberId : Z) (email : list N)
| PLogout (isLogined : Z)                        (* { isLogined } *)
| PHaveArrays (haveContents haveTodos : list (list N))
| PHave (haveContents haveTodos : bool)          (* { haveContents, haveTodos } *)
| PEntry (entry : Entry.t).                      (* the entry itself *)

Record Response := { status : Z; payload : Payload }.

(** [res.json(p)] and [res.status(s).json(p)] *)
Definition json (p : Payload) : Response := {| status := 200; payload := p |}.
Definition status_json (s : Z) (p : Payload) : Response :=
  {| status := s; payload := p |}.

(** The template literal of the login greeting. *)
Definition greeting (name : list N) : list N :=
  [48152; 44049; 49845; 45768; 45796; 44; 32]%N ++ name ++ [32; 45784; 33]%N.

Definition invalid_date : Response :=
  status_json 400 (PError "invalid date format (YYYY-MM-DD)").

(** ** Diary routes *)

(** [app.post("/diary/:date")] *)
Definition post_diary (st : State) (param : list N) (body : JsVal)
  : State * Response :=
  match normalizeDate (VStr param) with
  | None => (st, invalid_date)
  | Some date =>
      let b := js_or body (VObj []) in
      let todo := get_prop b "todo" in
      let contents := get_prop b "contents" in
      let thanks := get_prop b "thanks" in
      let todoArr := normalizeTodo todo in
      let entry :=
        {| Entry.todo := str_array todoArr;
           Entry.contents :=
             if isValidString contents then VStr (trim (str_of contents))
             else VStr [];
           Entry.thanks :=
             if isValidString thanks then VStr (trim (str_of thanks))
             else VStr [] |} in
      (set_diary st (map_set date entry (diaryByDate st)),
       json (PHave (isValidString (Entry.contents entry))
                   (nonEmptyArray (Entry.todo entry))))
  end.

(** [app.get("/diary/:date")] *)
Definition get_diary (st : State) (param : list N) : State * Response :=
  match normalizeDate (VStr param) with
  | None => (st, invalid_date)
  | Some date =>
      let entry := default empty_entry (map_get date (diaryByDate st)) in
      (st, json (PEntry entry))
  end.

(** [app.put("/diary/:date")] *)
Definition put_diary (st : State) (param : list N) (body : JsVal)
  : State * Response :=
  match normalizeDate (VStr param) with
  | None => (st, invalid_date)
  | Some date =>
      let prev := default empty_entry (map_get date (diaryByDate st)) in
      let b := js_or body (VObj []) in
      let todo := get_prop b "todo" in
      let contents := get_prop b "contents" in
      let thanks := get_prop b "thanks" in
      let updated :=
        {| Entry.todo :=
             if is_undefined todo then Entry.todo prev
             else str_array (normalizeTodo todo);
           Entry.contents :=
             if is_undefined contents then Entry.contents prev
             else if isValidString contents then VStr (trim (str_of contents))
             else VStr [];
           Entry.thanks :=
             if is_undefined thanks then Entry.thanks prev
             else if isValidString thanks then VStr (trim (str_of thanks))
             else VStr [] |} in
      (set_diary st (map_set date updated (diaryByDate st)),
       json (PHave (isValidString (Entry.contents updated))
                   (nonEmptyArray (Entry.todo updated))))
  end.

(** [app.get("/Home")] *)
Definition get_Home (st : State) : State * Response :=
  let '(haveContents, haveTodos) := getHaveArrays (diaryByDate st) in
  (st, json (PHaveArrays haveContents haveTodos)).

(** [app.get("/")] *)
Definition get_root (st : State) : State * Response :=
  (st, json (POk "Server is running")).

(** ** Account routes *)

(** What the Google login reads from outside the process: the environment
    and the results of its two HTTP calls. A call either resolves with the
    response's [data] or throws; [Rejected detail] carries what the [catch]
    block reports ([err.response?.data || err.message]). *)
Record GoogleEnv := {
  GOOGLE_CLIENT_ID : JsVal;
  GOOGLE_CLIENT_SECRET : JsVal;
  GOOGLE_REDIRECT_URI : JsVal
}.

Inductive Outcome :=
| Resolved (data : JsVal)
| Rejected (detail : JsVal).

Inductive Request :=
| GetRoot
| PostSignUp (body : JsVal)
| PostLogin (body : JsVal)
| PostAuthGoogle (body : JsVal) (env : GoogleEnv) (tokenRes userRes : Outcome)
| PostHome (body : JsVal)
| GetHome
| PostDiary (date : list N) (body : JsVal)
| GetDiary (date : list N)
| PutDiary (date : list N) (body : JsVal).

Section Routes.

(** Two built-ins are left abstract: [String.prototype.toLowerCase]
    (Unicode case mapping) and the conversion [String(v)] of a value that
    is not a string. *)
Variable toLowerCase : list N → list N.
Variable ToString : JsVal → list N.

(** [String(v)] *)
Definition String_ (v : JsVal) : list N :=
  match v with VStr s => s | _ => ToString v end.

(** [String(member.password)]: [String(null)] is ["null"]. *)
Definition String_password (p : option (list N)) : list N :=
  match p with Some s => s | None => lit "null" end.

(** [app.post("/SignUp")] *)
Definition post_SignUp (st : State) (body : JsVal) : State * Response :=
  let b := js_or body (VObj []) in
  let email := get_prop b "email" in
  let name := get_prop b "name" in
  let password := get_prop b "password" in
  if negb (isValidString email) || negb (isValidString name)
     || negb (isValidString password)
  then (st, status_json 400 (PError "email, name, password are required"))
  else
    let key := toLowerCase (trim (str_of email)) in
    if bool_decide (is_Some (membersByEmail st !! key))
    then (st, status_json 409 (PError "email already exists"))
    else
      let member :=
        {| Member.memberId := nextMemberId st;
           Member.name := trim (str_of name);
           Member.email := key;
           Member.password := Some (String_ password) |} in
      ({| nextMemberId := nextMemberId st + 1;
          membersByEmail := <[key := member]> (membersByEmail st);
          loginState := <[key := 0]> (loginState st);
          diaryByDate := diaryByDate st |},
       json (PMember (Member.memberId member) (Member.name member)
                     (Member.email member))).

(** [app.post("/Login")] *)
Definition post_Login (st : State) (body : JsVal) : State * Response :=
  let b := js_or body (VObj []) in
  let email := get_prop b "email" in
  let password := get_prop b "password" in
  if negb (isValidString email) || negb (isValidString password)
  then (st, status_json 400 (PError "email and password are required"))
  else
    let key := toLowerCase (trim (str_of email)) in
    match membersByEmail st !! key with
    | None => (st, status_json 401 (PLoginError "invalid credentials" 0))
    | Some member =>
        if bool_decide (String_password (Member.password member)
                        ≠ String_ password)
        then (st, status_json 401 (PLoginError "invalid credentials" 0))
        else
          ({| nextMemberId := nextMemberId st;
              membersByEmail := membersByEmail st;
              loginState := <[key := 1]> (loginState st);
              diaryByDate := diaryByDate st |},
           json (PLogin (greeting (Member.name member)) 1))
    end.

(** [app.post("/auth/google")]. Every read and write of the stores comes
    after the last [await], so the handler is one step. *)
Definition post_auth_google (st : State) (body : JsVal) (env : GoogleEnv)
    (tokenRes userRes : Outcome) : State * Response :=
  let code := get_prop (js_or body (VObj [])) "code" in
  if negb (isValidString code)
  then (st, status_json 400
              (PMessage (lit "code " ++ [50630; 51020]%N) None))
  else
  if negb (isValidString (GOOGLE_CLIENT_ID env))
     || negb (isValidString (GOOGLE_CLIENT_SECRET env))
     || negb (isValidString (GOOGLE_REDIRECT_URI env))
  then (st, status_json 500
              (PMessage (lit "Google env vars missing")
                 (Some (VStr
                    (lit "GOOGLE_CLIENT_ID / GOOGLE_CLIENT_SECRET / GOOGLE_REDIRECT_URI"
                     ++ [32; 54869; 51064; 32; 54596; 50836]%N)))))
  else
  let failed detail :=
    (st, status_json 500
           (PMessage (lit "Google OAuth " ++ [49892; 54056]%N) (Some detail))) in
  match tokenRes with
  | Rejected detail => failed detail
  | Resolved tokenData =>
      let access_token := get_prop (js_or tokenData (VObj [])) "access_token" in
      if negb (truthy access_token)
      then (st, status_json 401
                  (PMessage (lit "no access_token from google") (Some tokenData)))
      else
      match userRes with
      | Rejected detail => failed detail
      | Resolved userData =>
          let email := get_prop (js_or userData (VObj [])) "email" in
          let name := get_prop (js_or userData (VObj [])) "name" in
          if negb (truthy email)
          then (st, status_json 401
                      (PMessage (lit "email not found from userinfo") None))
          else
          let key := toLowerCase (String_ email) in
          let displayName :=
            if isValidString name then str_of name else lit "Google User" in
          (* [member] is what [membersByEmail.get(key)] returns once the
             branch below has run. *)
          let '(st1, member) :=
            match membersByEmail st !! key with
            | None =>
                let member :=
                  {| Member.memberId := nextMemberId st;
                     Member.name := displayName;
                     Member.email := key;
                     Member.password := None |} in
                ({| nextMemberId := nextMemberId st + 1;
                    membersByEmail := <[key := member]> (membersByEmail st);
                    loginState := <[key := 0]> (loginState st);
                    diaryByDate := diaryByDate st |}, member)
            | Some m =>
                if negb (isValidString (VStr (Member.name m)))
                then
                  let m' :=
                    {| Member.memberId := Member.memberId m;
                       Member.name := displayName;
                       Member.email := Member.email m;
                       Member.password := Member.password m |} in
                  ({| nextMemberId := nextMemberId st;
                      membersByEmail := <[key := m']> (membersByEmail st);
                      loginState := loginState st;
                      diaryByDate := diaryByDate st |}, m')
                else (st, m)
            end in
          ({| nextMemberId := nextMemberId st1;
              membersByEmail := membersByEmail st1;
              loginState := <[key := 1]> (loginState st1);
              diaryByDate := diaryByDate st1 |},
           json (PGoogle (greeting (Member.name member)) 1
                   (Member.memberId member) (Member.email member)))
      end
  end.

(** [app.post("/Home")]: log out. *)
Definition post_Home (st : State) (body : JsVal) : State * Response :=
  let email := get_prop (js_or body (VObj [])) "email" in
  let st' :=
    if isValidString email then
      let key := toLowerCase (trim (str_of email)) in
      if bool_decide (is_Some (loginState st !! key))
      then {| nextMemberId := nextMemberId st;
              membersByEmail := membersByEmail st;
              loginState := <[key := 0]> (loginState st);
              diaryByDate := diaryByDate st |}
      else st
    else st in
  (st', json (PLogout 0)).

(** One request, served to completion. *)
Definition handle (st : State) (req : Request) : State * Response :=
  match req with
  | GetRoot => get_root st
  | PostSignUp body => post_SignUp st body
  | PostLogin body => post_Login st body
  | PostAuthGoogle body env tokenRes userRes =>
      post_auth_google st body env tokenRes userRes
  | PostHome body => post_Home st body
  | GetHome => get_Home st
  | PostDiary date body => post_diary st date body
  | GetDiary date => get_diary st date
  | PutDiary date body => put_diary st date body
  end.

(** The states the server can be in: [init] at start-up, then one request
    after another. *)
Inductive reachable : State → Prop :=
| reachable_init : reachable init
| reachable_step st req : reachable st → reachable (handle st req).1.

(** The state after a sequence of requests. *)
Definition run (st : State) (reqs : list Request) : State :=
  foldl (λ s req, (handle s req).1) st reqs.

End Routes.

(** ** The specification's vocabulary *)

(** The characters [0] to [9]. *)
Definition digit (c : N) : Prop := (48 ≤ c ≤ 57)%N.

(** "four digits, hyphen, two digits, hyphen, two digits" *)
Definition date_shape (s : list N) : Prop :=
  ∃ y m d,
    length y = 4%nat ∧ length m = 2%nat ∧ length d = 2%nat ∧
    Forall digit y ∧ Forall digit m ∧ Forall digit d ∧
    s = y ++ [hyphen] ++ m ++ [hyphen] ++ d.

(** "a string with non-whitespace characters" *)
Definition has_non_whitespace (s : list N) : Prop :=
  Exists (λ c, is_white_space c = false) s.

(** Per-field normalisation of [contents] and [thanks]: "the trimmed
    contents if contents is a string with non-whitespace characters and the
    empty string otherwise". *)
Definition text_field (v : JsVal) : list N :=
  match v with
  | VStr s => if decide (has_non_whitespace s) then trim s else []
  | _ => []
  end.

(** "keep only string-typed elements" *)
Definition string_elements (xs : list JsVal) : list (list N) :=
  omap (λ x, match x with VStr s => Some s | _ => None end) xs.

(** Neither end of [s] is whitespace. *)
Definition trimmed (s : list N) : Prop :=
  (∀ c, head s = Some c → is_white_space c = false) ∧
  (∀ c, last s = Some c → is_white_space c = false).

(** The raw field [k] of a request body, as the handlers destructure it. *)
Definition body_field (body : JsVal) (k : string) : JsVal :=
  get_prop (js_or body (VObj [])) k.

(** The normalised triple of Upsert-Replace: [TodoNormalizer(todo)], and the
    per-field normalisation of [contents] and [thanks]. *)
Definition replace_entry (body : JsVal) : Entry.t :=
  {| Entry.todo := str_array (normalizeTodo (body_field body "todo"));
     Entry.contents := VStr (text_field (body_field body "contents"));
     Entry.thanks := VStr (text_field (body_field body "thanks")) |}.

(** Upsert-Merge, field by field: a field that is not provided keeps the
    base's value, a provided one is normalised as in Upsert-Replace. *)
Definition merge_entry (base : Entry.t) (body : JsVal) : Entry.t :=
  {| Entry.todo :=
       if is_undefined (body_field body "todo") then Entry.todo base
       else Entry.todo (replace_entry body);
     Entry.contents :=
       if is_undefined (body_field body "contents") then Entry.contents base
       else Entry.contents (replace_entry body);
     Entry.thanks :=
       if is_undefined (body_field body "thanks") then Entry.thanks base
       else Entry.thanks (replace_entry body) |}.

(** A stored entry is well typed: an array of strings and two strings. *)
Definition entry_typed (e : Entry.t) : Prop :=
  (∃ items, Entry.todo e = str_array items) ∧
  (∃ c, Entry.contents e = VStr c) ∧
  (∃ t, Entry.thanks e = VStr t).

(** What the handlers in fact keep: todo items are non-empty and trimmed,
    the texts are trimmed, keys are normalised dates and occur once. *)
Definition entry_ok (e : Entry.t) : Prop :=
  (∃ items, Entry.todo e = str_array items ∧
            Forall (λ s, s ≠ [] ∧ trim s = s) items) ∧
  (∃ c, Entry.contents e = VStr c ∧ trim c = c) ∧
  (∃ t, Entry.thanks e = VStr t ∧ trim t = t).

Definition diary_ok (m : list (list N * Entry.t)) : Prop :=
  NoDup m.*1 ∧
  Forall (λ de, normalizeDate (VStr de.1) = Some de.1 ∧ entry_ok de.2) m.

(** Every member id handed out so far is below the counter. *)
Definition members_ok (st : State) : Prop :=
  ∀ k m, membersByEmail st !! k = Some m →
         Member.memberId m < nextMemberId st ∧ Member.email m = k.

(** An ASCII-only [toLowerCase], to run the account routes on examples. *)
Definition ascii_lower (s : list N) : list N :=
  (λ c, if ((65 <=? c) && (c <=? 90))%N then (c + 32)%N else c) <$> s.

(** ** Example requests *)

Definition example_ToString (v : JsVal) : list N := lit "[object Object]".

Definition diary_body (todo contents thanks : JsVal) : JsVal :=
  VObj [(lit "todo", todo); (lit "contents", contents); (lit "thanks", thanks)].

Definition signup_body (email name password : string) : JsVal :=
  VObj [(lit "email", VStr (lit email)); (lit "name", VStr (lit name));
        (lit "password", VStr (lit password))].

(** [{todo: "a, b ,,c", contents: " hi ", thanks: ""}] *)
Definition may_first_body : JsVal :=
  diary_body (VStr (lit "a, b ,,c")) (VStr (lit " hi ")) (VStr []).

(** [{thanks: "grateful"}] *)
Definition thanks_only_body : JsVal := VObj [(lit "thanks", VStr (lit "grateful"))].

(** Three writes, out of date order, the last one of an empty entry. *)
Definition example_requests : list Request :=
  [ PostDiary (lit "2024-05-02") (VObj [(lit "contents", VStr (lit "rain"))]);
    PostDiary (lit "2024-05-01") may_first_body;
    PostDiary (lit "2024-04-30") (VObj []) ].

Definition example_state : State :=
  run ascii_lower example_ToString init example_requests.

(** ** Vocabulary of the further properties *)

(** Year, month and day of a normalised date, read as decimal numbers. *)
Definition digit_value (c : N) : N := (c - 48)%N.

Definition date_ymd (d : list N) : N * N * N :=
  match d with
  | [y1; y2; y3; y4; _; m1; m2; _; d1; d2] =>
      ((1000 * digit_value y1 + 100 * digit_value y2
        + 10 * digit_value y3 + digit_value y4)%N,
       (10 * digit_value m1 + digit_value m2)%N,
       (10 * digit_value d1 + digit_value d2)%N)
  | _ => (0%N, 0%N, 0%N)
  end.

(** The date as the number [yyyymmdd]. *)
Definition date_value (d : list N) : N :=
  let '(y, m, dd) := date_ymd d in (y * 10000 + m * 100 + dd)%N.

(** The Google login got through its checks: a valid [code], the three
    environment variables set, a token response with a truthy
    [access_token], and a user-info response whose [email] is truthy. *)
Definition google_verified (body : JsVal) (env : GoogleEnv)
    (tokenRes userRes : Outcome) (email name : JsVal) : Prop :=
  isValidString (body_field body "code") = true ∧
  isValidString (GOOGLE_CLIENT_ID env) = true ∧
  isValidString (GOOGLE_CLIENT_SECRET env) = true ∧
  isValidString (GOOGLE_REDIRECT_URI env) = true ∧
  ∃ tokenData userData,
    tokenRes = Resolved tokenData ∧
    truthy (body_field tokenData "access_token") = true ∧
    userRes = Resolved userData ∧
    body_field userData "email" = email ∧
    body_field userData "name" = name ∧
    truthy email = true.

(** [isValidString(name) ? name : "Google User"] *)
Definition google_displayName (name : JsVal) : list N :=
  if isValidString name then str_of name else lit "Google User".

(** The state with its login flags replaced. *)
Definition with_login (st : State) (l : gmap (list N) Z) : State :=
  {| nextMemberId := nextMemberId st; membersByEmail := membersByEmail st;
     loginState := l; diaryByDate := diaryByDate st |}.

(** The member record with another name. *)
Definition renamed (m : Member.t) (name : list N) : Member.t :=
  {| Member.memberId := Member.memberId m; Member.name := name;
     Member.email := Member.email m; Member.password := Member.password m |}.

(** The five things one request can do to the state. *)
Inductive effect : State → State → Prop :=
| effect_none st : effect st st
| effect_diary st d : effect st (set_diary st d)
| effect_register st key name pw flag :
    membersByEmail st !! key = None →
    flag = 0 ∨ flag = 1 →
    effect st
      {| nextMemberId := nextMemberId st + 1;
         membersByEmail :=
           <[key := {| Member.memberId := nextMemberId st; Member.name := name;
                       Member.email := key; Member.password := pw |}]>
             (membersByEmail st);
         loginState := <[key := flag]> (loginState st);
         diaryByDate := diaryByDate st |}
| effect_flag st key flag :
    is_Some (membersByEmail st !! key) ∨ is_Some (loginState st !! key) →
    flag = 0 ∨ flag = 1 →
    effect st (with_login st (<[key := flag]> (loginState st)))
| effect_rename st key m name :
    membersByEmail st !! key = Some m →
    isValidString (VStr (Member.name m)) = false →
    effect st
      {| nextMemberId := nextMemberId st;
         membersByEmail := <[key := renamed m name]> (membersByEmail st);
         loginState := <[key := 1]> (loginState st);
         diaryByDate := diaryByDate st |}.

(** Consistency of the account stores: a login flag exists exactly for the
    registered keys and is 0 or 1; the counter is one more than the number
    of members; a member is stored under its own email, with an id from 1
    up to the counter, and no two members share an id. *)
Definition accounts_ok (st : State) : Prop :=
  dom (loginState st) = dom (membersByEmail st) ∧
  (∀ k v, loginState st !! k = Some v → v = 0 ∨ v = 1) ∧
  nextMemberId st = 1 + Z.of_nat (size (membersByEmail st)) ∧
  (∀ k m, membersByEmail st !! k = Some m →
          Member.email m = k ∧ 1 ≤ Member.memberId m < nextMemberId st) ∧
  (∀ k1 k2 m1 m2,
      membersByEmail st !! k1 = Some m1 → membersByEmail st !! k2 = Some m2 →
      Member.memberId m1 = Member.memberId m2 → k1 = k2).

(** A body for [POST /Login] and the responses of the Google calls. *)
Definition login_body (email password : string) : JsVal :=
  VObj [(lit "email", VStr (lit email)); (lit "password", VStr (lit password))].

Definition example_env : GoogleEnv :=
  {| GOOGLE_CLIENT_ID := VStr (lit "id"); GOOGLE_CLIENT_SECRET := VStr (lit "secret");
     GOOGLE_REDIRECT_URI := VStr (lit "http://localhost/cb") |}.

Definition example_google (email name : string) : Request :=
  PostAuthGoogle (VObj [(lit "code", VStr (lit "4/abc"))]) example_env
    (Resolved (VObj [(lit "access_token", VStr (lit "ya29"))]))
    (Resolved (VObj [(lit "email", VStr (lit email));
                     (lit "name", VStr (lit name))])).

(** Two sign-ups, a Google login of a third address, a login, a logout. *)
Definition example_account_requests : list Request :=
  [ PostSignUp (signup_body "Ann@Example.com" "Ann" "pw");
    PostSignUp (signup_body "bob@example.com" "Bob" "hunter2");
    example_google "Cy@Example.com" "Cy";
    PostLogin (login_body "ann@example.com" "pw");
    PostHome (VObj [(lit "email", VStr (lit "cy@example.com"))]) ].

Definition example_account_state : State :=
  run ascii_lower example_ToString init example_account_requests.

(** ** Strings: trim, split, order *)

Lemma trimEnd_idem s : trimEnd (trimEnd s) = trimEnd s.
Proof.
  induction s as [|c r IH]; simpl; [done|].
  destruct (trimEnd r) as [|x xs] eqn:E.
  - destruct (is_white_space c) eqn:W; simpl; [done|]. by rewrite W.
  - simpl in *. by rewrite IH.
Qed.

Lemma trimStart_head s c :
  head (trimStart s) = Some c → is_white_space c = false.
Proof.
  induction s as [|x r IH]; simpl; [done|].
  destruct (is_white_space x) eqn:W; [done|]. simpl. by intros [= <-].
Qed.

Lemma trimStart_id s :
  (∀ c, head s = Some c → is_white_space c = false) → trimStart s = s.
Proof. destruct s as [|x r]; simpl; [done|]. intros H. by rewrite (H x). Qed.

Lemma trimEnd_head s :
  (∀ c, head s = Some c → is_white_space c = false) →
  ∀ c, head (trimEnd s) = Some c → is_white_space c = false.
Proof.
  destruct s as [|x r]; simpl; [done|]. intros H c.
  specialize (H x eq_refl). destruct (trimEnd r); rewrite ?H; simpl; congruence.
Qed.

Lemma trimEnd_last s c :
  last (trimEnd s) = Some c → is_white_space c = false.
Proof.
  induction s as [|x r IH]; simpl; [done|].
  destruct (trimEnd r) as [|y ys] eqn:E.
  - destruct (is_white_space x) eqn:W; simpl; [done|]. by intros [= <-].
  - rewrite last_cons_cons. apply IH.
Qed.

Lemma trimEnd_id s :
  (∀ c, last s = Some c → is_white_space c = false) → trimEnd s = s.
Proof.
  induction s as [|x r IH]; simpl; [done|]. intros H.
  rewrite IH.
  - destruct r; [|done]. by rewrite (H x).
  - intros c Hc. apply H. rewrite last_cons, Hc. done.
Qed.

Lemma trim_trimmed s : trimmed (trim s).
Proof.
  split; [|apply trimEnd_last].
  apply trimEnd_head, trimStart_head.
Qed.

Lemma trimmed_trim s : trimmed s → trim s = s.
Proof. intros [H1 H2]. unfold trim. by rewrite trimStart_id, trimEnd_id. Qed.

Lemma trim_idem s : trim (trim s) = trim s.
Proof. apply trimmed_trim, trim_trimmed. Qed.

Lemma trimStart_split s :
  ∃ pre, s = pre ++ trimStart s ∧ Forall (λ c, is_white_space c = true) pre.
Proof.
  induction s as [|x r (pre & E & F)]; simpl; [by exists []|].
  destruct (is_white_space x) eqn:W; [|by exists []].
  exists (x :: pre). split; [simpl; by f_equal | by constructor].
Qed.

Lemma trimEnd_split s :
  ∃ post, s = trimEnd s ++ post ∧ Forall (λ c, is_white_space c = true) post.
Proof.
  induction s as [|x r (post & E & F)]; simpl; [by exists []|].
  destruct (trimEnd r) as [|y ys] eqn:T.
  - destruct (is_white_space x) eqn:W.
    + exists (x :: post). simpl in *. split; [by f_equal | by constructor].
    + exists post. simpl in *. split; [by f_equal | done].
  - exists post. simpl in *. split; [by f_equal | done].
Qed.

(** [trim] removes a whitespace prefix and a whitespace suffix and leaves no
    whitespace at either end. *)
Lemma trim_spec s :
  ∃ pre post,
    s = pre ++ trim s ++ post ∧
    Forall (λ c, is_white_space c = true) pre ∧
    Forall (λ c, is_white_space c = true) post ∧
    trimmed (trim s).
Proof.
  destruct (trimStart_split s) as (pre & E1 & F1).
  destruct (trimEnd_split (trimStart s)) as (post & E2 & F2).
  exists pre, post. unfold trim. rewrite <- E2, <- E1.
  split_and!; try done. apply trim_trimmed.
Qed.

Lemma trimStart_nil_iff s :
  trimStart s = [] ↔ Forall (λ c, is_white_space c = true) s.
Proof.
  induction s as [|x r IH]; simpl; [by split|].
  destruct (is_white_space x) eqn:W.
  - rewrite IH. split; [by constructor | by inv 1].
  - split; [done|]. inv 1. congruence.
Qed.

Lemma trimEnd_nil_iff s :
  trimEnd s = [] ↔ Forall (λ c, is_white_space c = true) s.
Proof.
  induction s as [|x r IH]; simpl; [by split|].
  destruct (trimEnd r) as [|y ys] eqn:T.
  - destruct (is_white_space x) eqn:W.
    + split; [|done]. intros _. constructor; [done|]. by apply IH.
    + split; [done|]. inv 1. congruence.
  - split; [done|]. by intros [_ H%IH]%Forall_cons.
Qed.

Lemma trim_nil_iff s : trim s = [] ↔ ¬ has_non_whitespace s.
Proof.
  unfold trim, has_non_whitespace. rewrite trimEnd_nil_iff.
  destruct (trimStart_split s) as (pre & E & F).
  rewrite <- Forall_Exists_neg.
  split.
  - intros H. rewrite E. apply Forall_app. split.
    + eapply Forall_impl; [exact F|]. simpl. congruence.
    + eapply Forall_impl; [exact H|]. simpl. congruence.
  - intros H. rewrite E in H. apply Forall_app in H as [_ H].
    eapply Forall_impl; [exact H|]. simpl. intros c. by destruct (is_white_space c).
Qed.

(** [isValidString] accepts exactly the strings with a non-whitespace
    character. *)
Lemma isValidString_iff v :
  isValidString v = true ↔ ∃ s, v = VStr s ∧ has_non_whitespace s.
Proof.
  destruct v; simpl; try (split; [done | by intros (? & ? & ?)]).
  rewrite bool_decide_eq_true. split.
  - intros H. exists s. split; [done|].
    destruct (decide (has_non_whitespace s)) as [|Hn]; [done|].
    apply trim_nil_iff in Hn. rewrite Hn in H. simpl in H. lia.
  - intros (s' & [= <-] & H).
    destruct (trim s) eqn:E; simpl; [|lia].
    by apply trim_nil_iff in E.
Qed.

Lemma split_not_nil sep s : split sep s ≠ [].
Proof.
  destruct s as [|c r]; simpl; [done|].
  destruct (c =? sep)%N; [done|]. by destruct (split sep r).
Qed.

Lemma join_cons sep p ps :
  ps ≠ [] → join sep (p :: ps) = p ++ sep :: join sep ps.
Proof. by destruct ps. Qed.

(** Joining the pieces with the separator gives the string back. *)
Lemma join_split sep s : join sep (split sep s) = s.
Proof.
  induction s as [|c r IH]; simpl; [done|].
  destruct (N.eqb_spec c sep) as [->|Hne].
  - rewrite join_cons by apply split_not_nil. simpl. by rewrite IH.
  - pose proof (split_not_nil sep r) as Hnil.
    destruct (split sep r) as [|p ps]; [done|].
    destruct ps as [|q qs]; simpl in *; by rewrite <- IH.
Qed.

(** No piece contains the separator. *)
Lemma split_no_sep sep s : Forall (λ p, sep ∉ p) (split sep s).
Proof.
  induction s as [|c r IH]; simpl.
  - repeat constructor. by intros ?%elem_of_nil.
  - destruct (N.eqb_spec c sep) as [->|Hne].
    + constructor; [by intros ?%elem_of_nil | done].
    + destruct (split sep r) as [|p ps].
      * repeat constructor. intros [->|?%elem_of_nil]%elem_of_cons; done.
      * apply Forall_cons in IH as [Hp Hps]. constructor; [|done].
        intros [->|?]%elem_of_cons; done.
Qed.

Lemma split_app_sep sep p t :
  sep ∉ p → split sep (p ++ sep :: t) = p :: split sep t.
Proof.
  induction p as [|c p IH]; simpl; intros Hp.
  - by rewrite N.eqb_refl.
  - apply not_elem_of_cons in Hp as [Hc Hp].
    destruct (N.eqb_spec c sep) as [->|_]; [done|]. by rewrite IH.
Qed.

Lemma split_no_sep_id sep p : sep ∉ p → split sep p = [p].
Proof.
  induction p as [|c p IH]; simpl; intros Hp; [done|].
  apply not_elem_of_cons in Hp as [Hc Hp].
  destruct (N.eqb_spec c sep) as [->|_]; [done|]. by rewrite IH.
Qed.

(** [split] is the only such decomposition. *)
Lemma split_unique sep s ps :
  ps ≠ [] → Forall (λ p, sep ∉ p) ps → join sep ps = s → split sep s = ps.
Proof.
  intros Hne Hps <-. induction ps as [|p ps IH]; [done|].
  apply Forall_cons in Hps as [Hp Hps].
  destruct ps as [|q qs]; [by apply split_no_sep_id|].
  rewrite join_cons by done. rewrite split_app_sep by done.
  by rewrite IH.
Qed.

Lemma is_digit_iff c : is_digit c = true ↔ digit c.
Proof.
  unfold is_digit, digit. rewrite andb_true_iff, !N.leb_le. done.
Qed.

Lemma digit_not_white_space c : digit c → is_white_space c = false.
Proof.
  unfold digit, is_white_space. intros H. apply not_true_is_false.
  rewrite !orb_true_iff, !andb_true_iff, !N.leb_le, !N.eqb_eq. lia.
Qed.

Lemma hyphen_not_white_space : is_white_space hyphen = false.
Proof. reflexivity. Qed.

(** The regular expression accepts exactly the shape the specification
    words describe. *)
Lemma date_re_test_iff s : date_re_test s = true ↔ date_shape s.
Proof.
  split.
  - intros H. unfold date_re_test in H.
    destruct s as [|y1 [|y2 [|y3 [|y4 [|h1 [|m1 [|m2 [|h2 [|d1 [|d2 [|? ?]]]]]]]]]]];
      try done.
    rewrite !andb_true_iff, !N.eqb_eq, !is_digit_iff in H.
    destruct_and!; subst.
    exists [y1; y2; y3; y4], [m1; m2], [d1; d2].
    split_and!; try done;
      repeat first [apply Forall_nil_2 | apply Forall_cons_2; [assumption|]].
  - intros (y & m & d & Hy & Hm & Hd & Fy & Fm & Fd & ->).
    do 4 (destruct y as [|? y]; [done|]). destruct y; [|done].
    do 2 (destruct m as [|? m]; [done|]). destruct m; [|done].
    do 2 (destruct d as [|? d]; [done|]). destruct d; [|done].
    repeat match goal with H : Forall _ (_ :: _) |- _ =>
      apply Forall_cons in H as [?%is_digit_iff ?] end.
    simpl. repeat match goal with H : is_digit _ = true |- _ =>
      rewrite H; clear H end. reflexivity.
Qed.

Lemma date_shape_trimmed s : date_shape s → trimmed s.
Proof.
  intros (y & m & d & Hy & Hm & Hd & Fy & Fm & Fd & ->).
  do 4 (destruct y as [|? y]; [done|]). destruct y; [|done].
  do 2 (destruct m as [|? m]; [done|]). destruct m; [|done].
  do 2 (destruct d as [|? d]; [done|]). destruct d; [|done].
  repeat match goal with H : Forall _ (_ :: _) |- _ =>
    apply Forall_cons in H as [?%digit_not_white_space ?] end.
  split; simpl; intros c [= <-]; done.
Qed.

Lemma date_shape_not_nil s : date_shape s → s ≠ [].
Proof.
  intros (y & m & d & Hy & _ & _ & _ & _ & _ & ->) E.
  apply (f_equal length) in E. rewrite length_app in E. simpl in E. lia.
Qed.

(** [str_ltb] decides the strict lexicographic order of code-unit lists. *)
Lemma str_ltb_lexico a b : str_ltb a b = true ↔ lexico a b.
Proof.
  revert b. induction a as [|x a IH]; intros [|y b]; simpl; try done.
  unfold lexico at 1; simpl. unfold lexico at 1, prod_lexico; simpl.
  unfold lexico at 1, N_lexico.
  destruct (N.ltb_spec x y) as [Hxy|Hxy]; [split; [by left | done]|].
  destruct (N.ltb_spec y x) as [Hyx|Hyx].
  - split; [done|]. intros [?|[-> _]]; lia.
  - rewrite IH. split; [intros; right; split; [lia|done]|].
    intros [?|[_ ?]]; [lia|done].
Qed.

Lemma str_le_lexico a b : str_le a b ↔ ¬ lexico b a.
Proof.
  unfold str_le. rewrite <- str_ltb_lexico. by destruct (str_ltb b a).
Qed.

#[global] Instance str_le_total : Total str_le.
Proof.
  intros a b. rewrite !str_le_lexico.
  destruct (decide (str_le a b)) as [H|H]; rewrite str_le_lexico in H; [by left|].
  right. intros Hab. apply H. intros Hba.
  exact (irreflexivity lexico a (transitivity Hab Hba)).
Qed.

#[global] Instance str_le_trans : Transitive str_le.
Proof.
  intros a b c. rewrite !str_le_lexico. intros Hab Hbc Hca.
  destruct (trichotomy lexico a b) as [H|[->|H]]; [|done|done].
  apply Hbc. by transitivity a.
Qed.

#[global] Instance str_le_antisymm : AntiSymm (=) str_le.
Proof.
  intros a b. rewrite !str_le_lexico. intros Hab Hba.
  destruct (trichotomy lexico a b) as [H|[->|H]]; done.
Qed.

(** [sort] returns the sorted rearrangement of its argument. *)
Lemma sort_sorted l : StronglySorted str_le (sort l).
Proof. apply StronglySorted_merge_sort; apply _. Qed.

Lemma sort_perm l : sort l ≡ₚ l.
Proof. apply merge_sort_Permutation. Qed.

(** Any other correct sorting procedure returns the same array. *)
Lemma sort_unique l l' : Sorted str_le l' → l' ≡ₚ l → l' = sort l.
Proof.
  intros Hs Hp. apply (Sorted_unique str_le); [done| |].
  - apply Sorted_merge_sort, _.
  - by rewrite Hp, sort_perm.
Qed.

(** Without duplicates the sorted order is strict. *)
Lemma sorted_strict l :
  StronglySorted str_le l → NoDup l → StronglySorted lexico l.
Proof.
  induction 1 as [|x l Hs IH Hx]; intros Hnd; [constructor|].
  apply NoDup_cons in Hnd as [Hnin Hnd]. constructor; [by apply IH|].
  apply Forall_forall. intros y Hy.
  rewrite Forall_forall in Hx. specialize (Hx y Hy).
  apply str_le_lexico in Hx.
  destruct (trichotomy lexico x y) as [H|[->|H]]; done.
Qed.

(** ** Date normaliser *)

(** C4. For every input value, [normalizeDate] returns the trimmed input
    when the input is a non-empty string whose trimmed form is four digits,
    hyphen, two digits, hyphen, two digits (whatever the month and day), and
    [null] for every other input. *)
Theorem normalizeDate_contract (v : JsVal) :
  (∀ s, v = VStr s → s ≠ [] → date_shape (trim s) →
        normalizeDate v = Some (trim s)) ∧
  ((¬ ∃ s, v = VStr s ∧ s ≠ [] ∧ date_shape (trim s)) →
   normalizeDate v = None).
Proof.
  split.
  - intros s -> _ Hshape. unfold normalizeDate, isValidString.
    pose proof (date_shape_not_nil _ Hshape) as Hne.
    rewrite bool_decide_true by (destruct (trim s); [done | simpl; lia]).
    simpl. apply date_re_test_iff in Hshape. by rewrite Hshape.
  - intros Hnot. destruct v as [| | | |s| |]; try done.
    unfold normalizeDate. destruct (isValidString (VStr s)); simpl; [|done].
    destruct (date_re_test (trim s)) eqn:E; [|done].
    apply date_re_test_iff in E. exfalso. apply Hnot. exists s.
    split_and!; [done| |done].
    intros ->. by apply date_shape_not_nil in E.
Qed.

(** A normalised date normalises to itself. *)
Lemma normalizeDate_idem p d :
  normalizeDate (VStr p) = Some d → normalizeDate (VStr d) = Some d.
Proof.
  unfold normalizeDate. destruct (isValidString (VStr p)); simpl; [|done].
  destruct (date_re_test (trim p)) eqn:E; [|done]. intros [= <-].
  unfold isValidString. rewrite !trim_idem.
  pose proof E as Hs%date_re_test_iff%date_shape_not_nil.
  rewrite bool_decide_true by (destruct (trim p); [done | simpl; lia]).
  simpl. by rewrite E.
Qed.

Example normalizeDate_no_calendar_check :
  normalizeDate (VStr (lit "2024-13-99")) = Some (lit "2024-13-99").
Proof. reflexivity. Qed.

Example normalizeDate_rejects :
  normalizeDate (VStr (lit "2024-5-1")) = None ∧
  normalizeDate (VStr (lit "2024-0a-01")) = None ∧
  normalizeDate (VStr (lit "not-a-date")) = None ∧
  normalizeDate (VStr []) = None ∧
  normalizeDate VUndefined = None ∧
  normalizeDate (VArr [VStr (lit "2024-05-01")]) = None.
Proof. done. Qed.

(** ** Todo normaliser *)

Lemma filter_length_pos (l : list (list N)) :
  filter (λ x, 0 < length x)%nat l = filter (λ s, s ≠ []) l.
Proof.
  apply list_filter_iff. intros [|c s]; simpl; split; (done || lia).
Qed.

(** C5. [normalizeTodo] is total and returns: for an array, its string
    elements trimmed, the empty results dropped, in the original order; for
    a string, its comma-separated pieces trimmed, the empty ones dropped, in
    order; for any other value, the empty array. *)
Theorem normalizeTodo_contract (v : JsVal) :
  match v with
  | VArr xs =>
      normalizeTodo v = filter (λ s, s ≠ []) (trim <$> string_elements xs)
  | VStr s =>
      ∃ pieces,
        pieces ≠ [] ∧ Forall (λ p, comma ∉ p) pieces ∧ join comma pieces = s ∧
        normalizeTodo v = filter (λ s, s ≠ []) (trim <$> pieces)
  | _ => normalizeTodo v = []
  end.
Proof.
  destruct v as [| | | |s|xs|]; try done.
  - exists (split comma s). split_and!.
    + apply split_not_nil.
    + apply split_no_sep.
    + apply join_split.
    + simpl. apply filter_length_pos.
  - simpl. rewrite filter_length_pos. unfold string_elements.
    induction xs as [|x xs IH]; [done|].
    destruct x; simpl; try exact IH.
    rewrite !filter_cons. destruct (decide _); [f_equal|]; exact IH.
Qed.

(** The pieces of the string case are those of [split]. *)
Lemma normalizeTodo_pieces s pieces :
  pieces ≠ [] → Forall (λ p, comma ∉ p) pieces → join comma pieces = s →
  normalizeTodo (VStr s) = filter (λ s, s ≠ []) (trim <$> pieces).
Proof.
  intros Hne Hp Hj. rewrite <- (split_unique comma s pieces) by done.
  apply filter_length_pos.
Qed.

Lemma length_pos_not_nil (s : list N) : (0 < length s)%nat → s ≠ [].
Proof. destruct s; simpl; [lia | done]. Qed.

Lemma normalizeTodo_items v :
  Forall (λ s, s ≠ [] ∧ trim s = s) (normalizeTodo v).
Proof.
  apply Forall_forall. intros x Hx.
  destruct v as [| | | |s|xs|]; simpl in Hx; try by apply elem_of_nil in Hx.
  - apply list_elem_of_filter in Hx as [Hlen (p & -> & _)%list_elem_of_fmap].
    split; [by apply length_pos_not_nil | apply trim_idem].
  - apply list_elem_of_filter in Hx as [Hlen (y & -> & _)%list_elem_of_fmap].
    destruct y; simpl in Hlen; try lia.
    split; [by apply length_pos_not_nil | apply trim_idem].
Qed.

Lemma normalizeTodo_fixed items :
  Forall (λ s, s ≠ [] ∧ trim s = s) items →
  normalizeTodo (str_array items) = items.
Proof.
  unfold str_array. simpl. rewrite filter_length_pos.
  induction 1 as [|s items [Hne Htrim] _ IH]; [done|].
  rewrite !fmap_cons, filter_cons, Htrim.
  rewrite decide_True by done. by rewrite IH.
Qed.

(** C6. [normalizeTodo] is idempotent: normalising the array it returned
    gives that array back. *)
Theorem normalizeTodo_idempotent (v : JsVal) :
  normalizeTodo (str_array (normalizeTodo v)) = normalizeTodo v.
Proof. apply normalizeTodo_fixed, normalizeTodo_items. Qed.

Example normalizeTodo_string :
  normalizeTodo (VStr (lit "a, b ,,c")) = [lit "a"; lit "b"; lit "c"].
Proof. reflexivity. Qed.

Example normalizeTodo_array :
  normalizeTodo (VArr [VStr (lit " x "); VNull; VStr (lit "  "); VBool true;
                       VStr (lit "y")])
  = [lit "x"; lit "y"].
Proof. reflexivity. Qed.

(** ** The diary map *)

Lemma map_get_set_eq k v m : map_get k (map_set k v m) = Some v.
Proof.
  induction m as [|[k' v'] m IH]; simpl.
  - by rewrite decide_True.
  - destruct (decide (k = k')) as [->|Hne]; simpl.
    + by rewrite decide_True.
    + by rewrite decide_False.
Qed.

Lemma map_get_set_ne k k' v m :
  k ≠ k' → map_get k' (map_set k v m) = map_get k' m.
Proof.
  intros Hne. induction m as [|[k0 v0] m IH]; simpl.
  - by rewrite decide_False.
  - destruct (decide (k = k0)) as [->|Hne0]; simpl.
    + by rewrite !decide_False.
    + by rewrite IH.
Qed.

(** Writing back what is stored changes nothing, not even the order. *)
Lemma map_set_id k v m : map_get k m = Some v → map_set k v m = m.
Proof.
  induction m as [|[k' v'] m IH]; simpl; [done|].
  destruct (decide (k = k')) as [->|Hne]; [by intros [= ->]|].
  intros H. by rewrite IH.
Qed.

Lemma map_get_None k (m : list (list N * Entry.t)) :
  map_get k m = None ↔ k ∉ m.*1.
Proof.
  induction m as [|[k' v'] m IH]; simpl.
  - split; [intros _; apply not_elem_of_nil | done].
  - rewrite not_elem_of_cons. destruct (decide (k = k')) as [->|Hne].
    + split; [done | by intros [? _]].
    + rewrite IH. split; [done | by intros [_ ?]].
Qed.

Lemma map_get_Some_elem k v (m : list (list N * Entry.t)) :
  map_get k m = Some v → (k, v) ∈ m.
Proof.
  induction m as [|[k' v'] m IH]; simpl; [done|].
  destruct (decide (k = k')) as [->|Hne].
  - intros [= ->]. apply list_elem_of_here.
  - intros H. apply list_elem_of_further. by apply IH.
Qed.

Lemma map_get_elem k v (m : list (list N * Entry.t)) :
  NoDup m.*1 → (k, v) ∈ m → map_get k m = Some v.
Proof.
  induction m as [|[k' v'] m IH]; simpl.
  - by intros _ ?%elem_of_nil.
  - intros [Hnin Hnd]%NoDup_cons [[= -> ->]|Hin]%elem_of_cons.
    + by rewrite decide_True.
    + destruct (decide (k = k')) as [->|Hne]; [|by apply IH].
      exfalso. apply Hnin. apply list_elem_of_fmap. by exists (k', v).
Qed.

Lemma map_set_keys k v m :
  (map_set k v m).*1 = if decide (k ∈ m.*1) then m.*1 else m.*1 ++ [k].
Proof.
  induction m as [|[k' v'] m IH]; cbn [map_set].
  - rewrite decide_False; [done | apply not_elem_of_nil].
  - rewrite (fmap_cons fst (k', v') m). cbn [fst].
    destruct (decide (k = k')) as [->|Hne].
    + rewrite decide_True; [done | apply list_elem_of_here].
    + rewrite fmap_cons, IH. cbn [fst].
      destruct (decide (k ∈ m.*1)) as [Hin|Hnin].
      * rewrite decide_True; [done | by apply list_elem_of_further].
      * rewrite decide_False; [done|]. by intros [?|?]%elem_of_cons.
Qed.

Lemma map_set_NoDup k v m : NoDup m.*1 → NoDup (map_set k v m).*1.
Proof.
  intros Hnd. rewrite map_set_keys. destruct (decide (k ∈ m.*1)); [done|].
  apply NoDup_app. split_and!; [done| |apply NoDup_singleton].
  intros x Hx ->%list_elem_of_singleton. done.
Qed.

Lemma map_set_Forall (P : list N * Entry.t → Prop) k v m :
  P (k, v) → Forall P m → Forall P (map_set k v m).
Proof.
  intros Hkv. induction 1 as [|[k' v'] m Hx Hm IH]; simpl.
  - by apply Forall_cons_2.
  - destruct (decide (k = k')); by apply Forall_cons_2.
Qed.

(** ** Per-field normalisation *)

(** The conditional the handlers apply to [contents] and [thanks] is the
    normalisation the specification words. *)
Lemma text_norm v :
  (if isValidString v then VStr (trim (str_of v)) else VStr [])
  = VStr (text_field v).
Proof.
  destruct v as [| | | |s| |]; simpl; try done.
  destruct (decide (has_non_whitespace s)) as [H|H].
  - rewrite bool_decide_true; [done|].
    destruct (trim s) eqn:E; [|simpl; lia].
    by apply trim_nil_iff in E.
  - apply trim_nil_iff in H. rewrite H. done.
Qed.

Lemma text_field_trim v : trim (text_field v) = text_field v.
Proof.
  destruct v as [| | | |s| |]; simpl; try done.
  destruct (decide _); [apply trim_idem | done].
Qed.

Lemma text_field_valid v :
  isValidString (VStr (text_field v)) = bool_decide (text_field v ≠ []).
Proof.
  unfold isValidString. rewrite text_field_trim. apply bool_decide_ext.
  destruct (text_field v); simpl; split; (done || lia).
Qed.

Lemma replace_entry_ok body : entry_ok (replace_entry body).
Proof.
  split_and!; simpl.
  - eexists. split; [done | apply normalizeTodo_items].
  - eexists. split; [done | apply text_field_trim].
  - eexists. split; [done | apply text_field_trim].
Qed.

Lemma empty_entry_ok : entry_ok empty_entry.
Proof.
  split_and!; simpl; [by exists [] | by exists [] | by exists []].
Qed.

Lemma entry_ok_typed e : entry_ok e → entry_typed e.
Proof.
  intros ((items & ? & _) & (c & ? & _) & (t & ? & _)).
  split_and!; eauto.
Qed.

(** A stored text is non-empty exactly when [isValidString] accepts it. *)
Lemma entry_ok_contents e :
  entry_ok e → isValidString (Entry.contents e) = true ↔ Entry.contents e ≠ VStr [].
Proof.
  intros (_ & (c & -> & Hc) & _). simpl. rewrite Hc, bool_decide_eq_true.
  destruct c; simpl; split; (done || lia || congruence).
Qed.

Lemma entry_ok_todo e :
  entry_ok e → nonEmptyArray (Entry.todo e) = true ↔ Entry.todo e ≠ VArr [].
Proof.
  intros ((items & -> & _) & _). unfold str_array. simpl.
  rewrite bool_decide_eq_true.
  destruct items; simpl; split; (done || lia || congruence).
Qed.

(** What [POST /diary/:date] does for a valid date. *)
Lemma post_diary_valid st p d body :
  normalizeDate (VStr p) = Some d →
  post_diary st p body =
    (set_diary st (map_set d (replace_entry body) (diaryByDate st)),
     json (PHave (bool_decide (text_field (body_field body "contents") ≠ []))
                 (bool_decide (normalizeTodo (body_field body "todo") ≠ [])))).
Proof.
  intros Hd. unfold post_diary. rewrite Hd. cbv zeta.
  fold (body_field body "todo") (body_field body "contents")
       (body_field body "thanks").
  cbn [Entry.todo Entry.contents Entry.thanks].
  rewrite !text_norm, text_field_valid. do 3 f_equal.
  unfold str_array, nonEmptyArray. apply bool_decide_ext. rewrite length_fmap.
  destruct (normalizeTodo (body_field body "todo")); simpl; split; (done || lia).
Qed.

(** What [PUT /diary/:date] does for a valid date. *)
Lemma put_diary_valid st p d body :
  normalizeDate (VStr p) = Some d →
  put_diary st p body =
    let updated :=
      merge_entry (default empty_entry (map_get d (diaryByDate st))) body in
    (set_diary st (map_set d updated (diaryByDate st)),
     json (PHave (isValidString (Entry.contents updated))
                 (nonEmptyArray (Entry.todo updated)))).
Proof.
  intros Hd. unfold put_diary. rewrite Hd. cbv zeta.
  fold (body_field body "todo") (body_field body "contents")
       (body_field body "thanks").
  by rewrite !text_norm.
Qed.

Lemma merge_entry_ok base body : entry_ok base → entry_ok (merge_entry base body).
Proof.
  intros (Ht & Hc & Hk). pose proof (replace_entry_ok body) as (Ht' & Hc' & Hk').
  unfold merge_entry. split_and!; cbn [Entry.todo Entry.contents Entry.thanks];
    by case_match.
Qed.

Lemma set_diary_same st : set_diary st (diaryByDate st) = st.
Proof. by destruct st. Qed.

(** ** Diary store: write, read, merge *)

(** C1. For a valid date, [POST /diary/:date] followed by [GET /diary/:date]
    on the same normalised date answers 200 with exactly the normalised
    triple: the todo list is [normalizeTodo todo], and [contents] and
    [thanks] are the trimmed text when the raw field is a string with a
    non-whitespace character and the empty string otherwise. *)
Theorem post_then_get (st : State) (p p' d : list N) (body : JsVal) :
  normalizeDate (VStr p) = Some d →
  normalizeDate (VStr p') = Some d →
  (get_diary (post_diary st p body).1 p').2 =
    json (PEntry
      {| Entry.todo := str_array (normalizeTodo (body_field body "todo"));
         Entry.contents := VStr (text_field (body_field body "contents"));
         Entry.thanks := VStr (text_field (body_field body "thanks")) |}).
Proof.
  intros Hp Hp'. rewrite (post_diary_valid _ _ _ _ Hp).
  unfold get_diary. rewrite Hp'. cbn [fst snd set_diary diaryByDate].
  by rewrite map_get_set_eq.
Qed.

(** C2. For a valid date, [PUT /diary/:date] treats the three fields
    independently: a field that is [undefined] keeps the value of the entry
    stored at that date (of the empty entry if there is none), and a
    provided field gets the value [POST] would store; nothing else in the
    state changes. With no field provided on an existing date the whole
    state is unchanged, and with only [contents] provided the todo list and
    [thanks] are the previous ones. *)
Theorem put_diary_merge (st : State) (p d : list N) (body : JsVal) :
  normalizeDate (VStr p) = Some d →
  let base := default empty_entry (map_get d (diaryByDate st)) in
  let posted := (post_diary st p body).1 in
  let st' := (put_diary st p body).1 in
  (∃ e r,
      map_get d (diaryByDate st') = Some e ∧
      map_get d (diaryByDate posted) = Some r ∧
      Entry.todo e = (if is_undefined (body_field body "todo")
                      then Entry.todo base else Entry.todo r) ∧
      Entry.contents e = (if is_undefined (body_field body "contents")
                          then Entry.contents base else Entry.contents r) ∧
      Entry.thanks e = (if is_undefined (body_field body "thanks")
                        then Entry.thanks base else Entry.thanks r) ∧
      (body_field body "todo" = VUndefined →
       body_field body "thanks" = VUndefined →
       Entry.todo e = Entry.todo base ∧ Entry.thanks e = Entry.thanks base)) ∧
  (∀ d', d' ≠ d →
         map_get d' (diaryByDate st') = map_get d' (diaryByDate st)) ∧
  nextMemberId st' = nextMemberId st ∧
  membersByEmail st' = membersByEmail st ∧
  loginState st' = loginState st ∧
  (is_Some (map_get d (diaryByDate st)) →
   body_field body "todo" = VUndefined →
   body_field body "contents" = VUndefined →
   body_field body "thanks" = VUndefined →
   st' = st).
Proof.
  intros Hd base posted st'. subst posted st'.
  rewrite (put_diary_valid _ _ _ _ Hd), (post_diary_valid _ _ _ _ Hd).
  cbn [fst set_diary diaryByDate nextMemberId membersByEmail loginState].
  fold base. split_and!; try done.
  - exists (merge_entry base body), (replace_entry body).
    rewrite !map_get_set_eq. split_and!; try done.
    intros Ht Hk. cbn [merge_entry Entry.todo Entry.thanks].
    by rewrite Ht, Hk.
  - intros d' Hne. by apply map_get_set_ne.
  - intros [e He] Ht Hc Hk. subst base. rewrite He. simpl.
    unfold merge_entry. rewrite Ht, Hc, Hk. simpl.
    replace {| Entry.todo := Entry.todo e; Entry.contents := Entry.contents e;
               Entry.thanks := Entry.thanks e |} with e by (by destruct e).
    rewrite map_set_id by done. apply set_diary_same.
Qed.

(** C10. [GET /diary/:date] never modifies the state. For a valid date
    with no entry it answers the empty default and still stores no entry
    for that date; for a stored date it answers the stored entry. *)
Theorem get_diary_readonly (st : State) (p : list N) :
  (get_diary st p).1 = st ∧
  (∀ d, normalizeDate (VStr p) = Some d →
        map_get d (diaryByDate st) = None →
        (get_diary st p).2 =
          json (PEntry {| Entry.todo := VArr []; Entry.contents := VStr [];
                          Entry.thanks := VStr [] |}) ∧
        map_get d (diaryByDate (get_diary st p).1) = None) ∧
  (∀ d e, normalizeDate (VStr p) = Some d →
          map_get d (diaryByDate st) = Some e →
          (get_diary st p).2 = json (PEntry e)).
Proof.
  unfold get_diary. split_and!.
  - by destruct (normalizeDate (VStr p)).
  - intros d Hd Hnone. rewrite Hd. simpl. by rewrite Hnone.
  - intros d e Hd He. rewrite Hd. simpl. by rewrite He.
Qed.

(** ** Invariants of the stores *)

Lemma map_set_elem k v m d e :
  (d, e) ∈ map_set k v m → (d, e) = (k, v) ∨ (d, e) ∈ m.
Proof.
  induction m as [|[k' v'] m IH]; simpl.
  - intros ?%list_elem_of_singleton. by left.
  - destruct (decide (k = k')) as [->|Hne].
    + intros [?|?]%elem_of_cons; [by left | right; by apply list_elem_of_further].
    + intros [->|H]%elem_of_cons; [right; apply list_elem_of_here|].
      destruct (IH H); [by left | right; by apply list_elem_of_further].
Qed.

Lemma diary_ok_set d e m :
  normalizeDate (VStr d) = Some d → entry_ok e →
  diary_ok m → diary_ok (map_set d e m).
Proof.
  intros Hd He [Hnd Hall]. split; [by apply map_set_NoDup|].
  by apply map_set_Forall.
Qed.

Lemma diary_ok_base d m :
  diary_ok m → entry_ok (default empty_entry (map_get d m)).
Proof.
  intros [_ Hall]. destruct (map_get d m) as [e|] eqn:E; simpl.
  - apply map_get_Some_elem in E. rewrite Forall_forall in Hall.
    by destruct (Hall _ E).
  - apply empty_entry_ok.
Qed.

Lemma post_diary_ok st p body :
  diary_ok (diaryByDate st) → diary_ok (diaryByDate (post_diary st p body).1).
Proof.
  intros Hok. destruct (normalizeDate (VStr p)) as [d|] eqn:Hd.
  - rewrite (post_diary_valid _ _ _ _ Hd). simpl.
    apply diary_ok_set; eauto using normalizeDate_idem, replace_entry_ok.
  - unfold post_diary. by rewrite Hd.
Qed.

Lemma put_diary_ok st p body :
  diary_ok (diaryByDate st) → diary_ok (diaryByDate (put_diary st p body).1).
Proof.
  intros Hok. destruct (normalizeDate (VStr p)) as [d|] eqn:Hd.
  - rewrite (put_diary_valid _ _ _ _ Hd). simpl.
    apply diary_ok_set; eauto using normalizeDate_idem.
    by apply merge_entry_ok, diary_ok_base.
  - unfold put_diary. by rewrite Hd.
Qed.

(** The loop of [getHaveArrays] collects, in store order, the dates whose
    entry passes each test. *)
Lemma getHaveArrays_filter m :
  getHaveArrays m =
    (sort (filter (λ de, isValidString (Entry.contents de.2) = true) m).*1,
     sort (filter (λ de, nonEmptyArray (Entry.todo de.2) = true) m).*1).
Proof.
  unfold getHaveArrays.
  set (step := λ '(haveContents, haveTodos) '(date, entry), _).
  assert (∀ hc ht,
    foldl step (hc, ht) m =
      (hc ++ (filter (λ de, isValidString (Entry.contents de.2) = true) m).*1,
       ht ++ (filter (λ de, nonEmptyArray (Entry.todo de.2) = true) m).*1))
    as Hfold.
  { induction m as [|[d e] m IH]; intros hc ht.
    - simpl. by rewrite !app_nil_r.
    - cbn [foldl]. unfold step at 2. rewrite IH, !filter_cons. cbn [snd].
      destruct (isValidString (Entry.contents e));
        destruct (nonEmptyArray (Entry.todo e));
        rewrite ?decide_True by done; rewrite ?decide_False by done;
        by rewrite ?fmap_cons, <- ?app_assoc. }
  by rewrite (Hfold [] []).
Qed.

Section Server.

Variable toLowerCase : list N → list N.
Variable ToString : JsVal → list N.

Local Abbreviation handle := (handle toLowerCase ToString).
Local Abbreviation reachable := (reachable toLowerCase ToString).
Local Abbreviation post_SignUp := (post_SignUp toLowerCase ToString).
Local Abbreviation post_Login := (post_Login toLowerCase ToString).
Local Abbreviation post_auth_google := (post_auth_google toLowerCase ToString).
Local Abbreviation post_Home := (post_Home toLowerCase).

Lemma reachable_run st reqs :
  reachable st → reachable (run toLowerCase ToString st reqs).
Proof.
  revert st. induction reqs as [|req reqs IH]; intros st Hst; [done|].
  apply IH. by constructor.
Qed.

(** The account routes leave the diary alone. *)
Lemma account_routes_diary st req :
  match req with
  | PostDiary _ _ | PutDiary _ _ => True
  | _ => diaryByDate (handle st req).1 = diaryByDate st
  end.
Proof.
  destruct req; try done; simpl.
  - unfold post_SignUp. by repeat case_match.
  - unfold post_Login. by repeat case_match.
  - unfold post_auth_google. repeat case_match; simplify_eq; done.
  - unfold post_Home. by repeat case_match.
  - unfold get_Home. by case_match.
  - unfold get_diary. by case_match.
Qed.

Lemma handle_diary_ok st req :
  diary_ok (diaryByDate st) → diary_ok (diaryByDate (handle st req).1).
Proof.
  intros Hok. pose proof (account_routes_diary st req) as H.
  destruct req; try (by rewrite H);
    [by apply post_diary_ok | by apply put_diary_ok].
Qed.

Lemma reachable_diary_ok st : reachable st → diary_ok (diaryByDate st).
Proof.
  induction 1 as [|st req _ IH]; [|by apply handle_diary_ok].
  split; simpl; constructor.
Qed.

(** C7. Every entry the diary store ever holds has its three fields
    present and of the right type: [todo] an array of strings, [contents]
    and [thanks] strings. The replace and the merge both preserve this. A
    raw field that is absent or of another type is stored by the replace as
    the empty string or the empty array, and so is a field the merge is
    given with another type. *)
Theorem diary_entries_typed :
  (∀ st d e, reachable st → (d, e) ∈ diaryByDate st → entry_typed e) ∧
  (∀ st p body,
      (∀ d e, (d, e) ∈ diaryByDate st → entry_typed e) →
      ∀ d e, (d, e) ∈ diaryByDate (post_diary st p body).1 → entry_typed e) ∧
  (∀ st p body,
      (∀ d e, (d, e) ∈ diaryByDate st → entry_typed e) →
      ∀ d e, (d, e) ∈ diaryByDate (put_diary st p body).1 → entry_typed e) ∧
  (∀ st p d body,
      normalizeDate (VStr p) = Some d →
      ∃ e, map_get d (diaryByDate (post_diary st p body).1) = Some e ∧
           ((∀ s, body_field body "contents" ≠ VStr s) →
            Entry.contents e = VStr []) ∧
           ((∀ s, body_field body "thanks" ≠ VStr s) →
            Entry.thanks e = VStr []) ∧
           ((∀ s, body_field body "todo" ≠ VStr s) →
            (∀ xs, body_field body "todo" ≠ VArr xs) →
            Entry.todo e = VArr [])) ∧
  (∀ st p d body,
      normalizeDate (VStr p) = Some d →
      ∃ e, map_get d (diaryByDate (put_diary st p body).1) = Some e ∧
           (body_field body "contents" ≠ VUndefined →
            (∀ s, body_field body "contents" ≠ VStr s) →
            Entry.contents e = VStr []) ∧
           (body_field body "thanks" ≠ VUndefined →
            (∀ s, body_field body "thanks" ≠ VStr s) →
            Entry.thanks e = VStr []) ∧
           (body_field body "todo" ≠ VUndefined →
            (∀ s, body_field body "todo" ≠ VStr s) →
            (∀ xs, body_field body "todo" ≠ VArr xs) →
            Entry.todo e = VArr [])).
Proof.
  split_and!.
  - intros st d e Hr Hin. apply reachable_diary_ok in Hr as [_ Hall].
    rewrite Forall_forall in Hall. destruct (Hall _ Hin) as [_ He].
    by apply entry_ok_typed.
  - intros st p body Hst d e. destruct (normalizeDate (VStr p)) as [d0|] eqn:Hd.
    + rewrite (post_diary_valid _ _ _ _ Hd). simpl.
      intros [[= -> ->]|Hin]%map_set_elem; [|by eapply Hst].
      apply entry_ok_typed, replace_entry_ok.
    + unfold post_diary. rewrite Hd. apply Hst.
  - intros st p body Hst d e. destruct (normalizeDate (VStr p)) as [d0|] eqn:Hd.
    + rewrite (put_diary_valid _ _ _ _ Hd). simpl.
      intros [[= -> ->]|Hin]%map_set_elem; [|by eapply Hst].
      assert (entry_typed (default empty_entry (map_get d0 (diaryByDate st))))
        as (Ht & Hc & Hk).
      { destruct (map_get d0 (diaryByDate st)) as [e0|] eqn:E; simpl.
        - apply map_get_Some_elem in E. by eapply Hst.
        - apply entry_ok_typed, empty_entry_ok. }
      pose proof (entry_ok_typed _ (replace_entry_ok body)) as (Ht' & Hc' & Hk').
      unfold merge_entry.
      split_and!; cbn [Entry.todo Entry.contents Entry.thanks]; by case_match.
    + unfold put_diary. rewrite Hd. apply Hst.
  - intros st p d body Hd. rewrite (post_diary_valid _ _ _ _ Hd). simpl.
    exists (replace_entry body). rewrite map_get_set_eq.
    split_and!; [done|..]; unfold replace_entry; simpl.
    + intros H. destruct (body_field body "contents"); try done. by destruct (H s).
    + intros H. destruct (body_field body "thanks"); try done. by destruct (H s).
    + intros H1 H2. destruct (body_field body "todo"); try done.
      * by destruct (H1 s).
      * by destruct (H2 xs).
  - intros st p d body Hd. rewrite (put_diary_valid _ _ _ _ Hd). simpl.
    eexists. rewrite map_get_set_eq.
    split_and!; [done|..]; unfold merge_entry, replace_entry; simpl.
    + intros H0 H. destruct (body_field body "contents"); try done. by destruct (H s).
    + intros H0 H. destruct (body_field body "thanks"); try done. by destruct (H s).
    + intros H0 H1 H2. destruct (body_field body "todo"); try done.
      * by destruct (H1 s).
      * by destruct (H2 xs).
Qed.

(** C3. [getHaveArrays], which [GET /Home] answers with, lists in
    [haveContents] exactly the stored dates whose entry has non-empty
    contents and in [haveTodos] exactly those with a non-empty todo list,
    each in strictly ascending lexicographic order; a date with empty
    contents and an empty todo list is in neither. *)
Theorem getHaveArrays_summary (st : State) :
  reachable st →
  let haveContents := (getHaveArrays (diaryByDate st)).1 in
  let haveTodos := (getHaveArrays (diaryByDate st)).2 in
  get_Home st = (st, json (PHaveArrays haveContents haveTodos)) ∧
  (∀ d, d ∈ haveContents ↔
        ∃ e, map_get d (diaryByDate st) = Some e ∧ Entry.contents e ≠ VStr []) ∧
  (∀ d, d ∈ haveTodos ↔
        ∃ e, map_get d (diaryByDate st) = Some e ∧ Entry.todo e ≠ VArr []) ∧
  StronglySorted lexico haveContents ∧
  StronglySorted lexico haveTodos ∧
  (∀ d e, map_get d (diaryByDate st) = Some e →
          Entry.contents e = VStr [] → Entry.todo e = VArr [] →
          (d ∉ haveContents) ∧ (d ∉ haveTodos)).
Proof.
  intros Hr hc ht. pose proof (reachable_diary_ok _ Hr) as [Hnd Hall].
  rewrite Forall_forall in Hall.
  assert (∀ (P : list N * Entry.t → Prop) `{!∀ x, Decision (P x)}
            (Q : Entry.t → Prop),
            (∀ e, entry_ok e → ∀ d, P (d, e) ↔ Q e) →
            let l := sort (filter P (diaryByDate st)).*1 in
            (∀ d, d ∈ l ↔ ∃ e, map_get d (diaryByDate st) = Some e ∧ Q e) ∧
            StronglySorted lexico l) as Hlist.
  { intros P HP Q HPQ l. split.
    - intros d. subst l. rewrite sort_perm, list_elem_of_fmap. split.
      + intros ([d' e] & -> & Hf). apply list_elem_of_filter in Hf as [HPe Hin].
        simpl.
        exists e. split; [by apply map_get_elem|].
        apply (HPQ e) in HPe; [done|]. by destruct (Hall _ Hin).
      + intros (e & He & HQ). apply map_get_Some_elem in He.
        exists (d, e). split; [done|]. apply list_elem_of_filter.
        split; [|done]. apply HPQ; [|done]. by destruct (Hall _ He).
    - apply sorted_strict; [apply sort_sorted|]. subst l. rewrite sort_perm.
      eapply sublist_NoDup; [exact Hnd|].
      apply fmap_sublist, sublist_filter. }
  subst hc ht. rewrite getHaveArrays_filter. cbn [fst snd].
  destruct (Hlist (λ de, isValidString (Entry.contents de.2) = true) _
              (λ e, Entry.contents e ≠ VStr [])) as [Hc1 Hc2].
  { intros e He d. by apply entry_ok_contents. }
  destruct (Hlist (λ de, nonEmptyArray (Entry.todo de.2) = true) _
              (λ e, Entry.todo e ≠ VArr [])) as [Ht1 Ht2].
  { intros e He d. by apply entry_ok_todo. }
  split_and!; try done.
  - unfold get_Home. by rewrite getHaveArrays_filter.
  - intros d e He Hc Ht. rewrite Hc1, Ht1. split.
    + intros (e' & He' & Hne). congruence.
    + intros (e' & He' & Hne). congruence.
Qed.

Lemma handle_members_ok st req :
  members_ok st → members_ok (handle st req).1.
Proof.
  intros Hok. unfold members_ok in *.
  destruct req; simpl;
    [ unfold get_root | unfold post_SignUp | unfold post_Login
    | unfold post_auth_google | unfold post_Home | unfold get_Home
    | unfold post_diary | unfold get_diary | unfold put_diary ];
    repeat case_match; simplify_eq; cbn; try done;
    intros k m Hk;
    try (apply lookup_insert_Some in Hk as [[<- <-]|[? Hk]]; cbn);
    try match goal with
        | H : membersByEmail st !! _ = Some _ |- _ =>
            destruct (Hok _ _ H); clear H
        end;
    try (split; [lia | done]);
    destruct (Hok _ _ Hk); split; (lia || done).
Qed.

Lemma reachable_members_ok st : reachable st → members_ok st.
Proof.
  induction 1 as [|st req _ IH]; [|by apply handle_members_ok].
  intros k m Hk. simpl in Hk. by rewrite lookup_empty in Hk.
Qed.

Lemma isValidString_text e :
  has_non_whitespace e → isValidString (VStr e) = true.
Proof. intros H. apply isValidString_iff. eauto. Qed.

(** What [POST /SignUp] does once its three fields are valid strings. *)
Lemma post_SignUp_valid st body e n pw :
  body_field body "email" = VStr e →
  body_field body "name" = VStr n →
  body_field body "password" = VStr pw →
  has_non_whitespace e → has_non_whitespace n → has_non_whitespace pw →
  post_SignUp st body =
    let key := toLowerCase (trim e) in
    if bool_decide (is_Some (membersByEmail st !! key))
    then (st, status_json 409 (PError "email already exists"))
    else
      ({| nextMemberId := nextMemberId st + 1;
          membersByEmail :=
            <[key := {| Member.memberId := nextMemberId st;
                        Member.name := trim n; Member.email := key;
                        Member.password := Some pw |}]> (membersByEmail st);
          loginState := <[key := 0]> (loginState st);
          diaryByDate := diaryByDate st |},
       json (PMember (nextMemberId st) (trim n) key)).
Proof.
  intros He Hn Hp Ve Vn Vp. unfold post_SignUp.
  fold (body_field body "email") (body_field body "name")
       (body_field body "password").
  rewrite He, Hn, Hp, !isValidString_text by done. done.
Qed.

(** C8. A request answered 400 or 409 leaves the whole state as it was. In
    particular the three diary routes answer an invalid date with the same
    400, whatever the stores hold, and keep the state; and [POST /SignUp]
    keeps the members, the counter and the login flags when a field is
    missing or empty (400) and when the email is taken (409). *)
Theorem rejected_requests_keep_state :
  (∀ st req,
      status (handle st req).2 = 400 ∨ status (handle st req).2 = 409 →
      (handle st req).1 = st) ∧
  (∀ st p body,
      normalizeDate (VStr p) = None →
      post_diary st p body = (st, invalid_date) ∧
      get_diary st p = (st, invalid_date) ∧
      put_diary st p body = (st, invalid_date) ∧
      status invalid_date = 400) ∧
  (∀ st body f,
      f ∈ ["email"; "name"; "password"] →
      body_field body f = VUndefined ∨ body_field body f = VStr [] →
      post_SignUp st body =
        (st, status_json 400 (PError "email, name, password are required"))) ∧
  (∀ st body e n pw,
      body_field body "email" = VStr e →
      body_field body "name" = VStr n →
      body_field body "password" = VStr pw →
      has_non_whitespace e → has_non_whitespace n → has_non_whitespace pw →
      is_Some (membersByEmail st !! toLowerCase (trim e)) →
      post_SignUp st body = (st, status_json 409 (PError "email already exists"))).
Proof.
  split_and!.
  - intros st req.
    destruct req; simpl;
      [ unfold get_root | unfold post_SignUp | unfold post_Login
      | unfold post_auth_google | unfold post_Home | unfold get_Home
      | unfold post_diary | unfold get_diary | unfold put_diary ];
      repeat case_match; simplify_eq; cbn; try done;
      intros [?|?]; done.
  - intros st p body Hd. unfold post_diary, get_diary, put_diary.
    by rewrite Hd.
  - intros st body f Hf Hv. unfold post_SignUp.
    fold (body_field body "email") (body_field body "name")
         (body_field body "password").
    assert (isValidString (body_field body f) = false) as Hinv
      by (by destruct Hv as [-> | ->]).
    repeat (apply elem_of_cons in Hf as [->|Hf]);
      [| | |by apply elem_of_nil in Hf]; rewrite Hinv; simpl;
      rewrite ?orb_true_r; done.
  - intros st body e n pw He Hn Hp Ve Vn Vp Hm.
    rewrite (post_SignUp_valid _ _ _ _ _ He Hn Hp Ve Vn Vp). cbv zeta.
    by rewrite bool_decide_true.
Qed.

(** C9, as the code has it. With [email], [name] and [password] each a
    string that has a non-whitespace character, [POST /SignUp] answers 409
    exactly when a member is stored under the trimmed, lower-cased email,
    and then changes nothing; otherwise it stores a member with the current
    counter as id under that key, advances the counter, and sets the key's
    login flag to 0. In a reachable state no stored member has that id. A
    second sign-up whose email has the same trimmed lower-case form is
    answered 409. *)
Theorem signUp_register (st : State) (body : JsVal) (e n pw : list N) :
  body_field body "email" = VStr e →
  body_field body "name" = VStr n →
  body_field body "password" = VStr pw →
  has_non_whitespace e → has_non_whitespace n → has_non_whitespace pw →
  let key := toLowerCase (trim e) in
  let st' := (post_SignUp st body).1 in
  let res := (post_SignUp st body).2 in
  (status res = 409 ↔ is_Some (membersByEmail st !! key)) ∧
  (is_Some (membersByEmail st !! key) → st' = st) ∧
  (membersByEmail st !! key = None →
     res = json (PMember (nextMemberId st) (trim n) key) ∧
     membersByEmail st' =
       <[key := {| Member.memberId := nextMemberId st; Member.name := trim n;
                   Member.email := key; Member.password := Some pw |}]>
         (membersByEmail st) ∧
     nextMemberId st' = nextMemberId st + 1 ∧
     loginState st' = <[key := 0]> (loginState st) ∧
     diaryByDate st' = diaryByDate st ∧
     (reachable st →
      ∀ k m, membersByEmail st !! k = Some m →
             Member.memberId m ≠ nextMemberId st)) ∧
  (∀ body2 e2 n2 pw2,
     body_field body2 "email" = VStr e2 →
     body_field body2 "name" = VStr n2 →
     body_field body2 "password" = VStr pw2 →
     has_non_whitespace e2 → has_non_whitespace n2 → has_non_whitespace pw2 →
     toLowerCase (trim e2) = key →
     post_SignUp st' body2 =
       (st', status_json 409 (PError "email already exists"))).
Proof.
  intros He Hn Hp Ve Vn Vp key st' res. subst st' res.
  rewrite (post_SignUp_valid _ _ _ _ _ He Hn Hp Ve Vn Vp). cbv zeta. fold key.
  destruct (membersByEmail st !! key) as [m0|] eqn:Hm.
  - rewrite bool_decide_true by eauto. cbn [fst snd status status_json].
    split_and!; try done.
    intros body2 e2 n2 pw2 He2 Hn2 Hp2 Ve2 Vn2 Vp2 Hkey.
    rewrite (post_SignUp_valid _ _ _ _ _ He2 Hn2 Hp2 Ve2 Vn2 Vp2). cbv zeta.
    rewrite Hkey, Hm. by rewrite bool_decide_true by eauto.
  - rewrite bool_decide_false by (by intros [? ?]).
    cbn [fst snd status json nextMemberId membersByEmail loginState diaryByDate].
    split_and!; try done.
    + intros _. split_and!; try done.
      intros Hr k m Hk. apply reachable_members_ok in Hr.
      destruct (Hr _ _ Hk). lia.
    + intros body2 e2 n2 pw2 He2 Hn2 Hp2 Ve2 Vn2 Vp2 Hkey.
      rewrite (post_SignUp_valid _ _ _ _ _ He2 Hn2 Hp2 Ve2 Vn2 Vp2). cbv zeta.
      cbn [membersByEmail]. rewrite Hkey, lookup_insert_eq.
      by rewrite bool_decide_true by eauto.
Qed.

End Server.

(** ** The specification's scenarios, run *)

Example scenario_post :
  post_diary init (lit "2024-05-01") may_first_body =
    (set_diary init
       [(lit "2024-05-01",
         {| Entry.todo := str_array [lit "a"; lit "b"; lit "c"];
            Entry.contents := VStr (lit "hi");
            Entry.thanks := VStr [] |})],
     json (PHave true true)).
Proof. reflexivity. Qed.

Example scenario_put :
  (put_diary (post_diary init (lit "2024-05-01") may_first_body).1
     (lit "2024-05-01") thanks_only_body).1 =
  set_diary init
    [(lit "2024-05-01",
      {| Entry.todo := str_array [lit "a"; lit "b"; lit "c"];
         Entry.contents := VStr (lit "hi");
         Entry.thanks := VStr (lit "grateful") |})].
Proof. reflexivity. Qed.

Example scenario_get_absent :
  get_diary init (lit "1999-12-31") = (init, json (PEntry empty_entry)).
Proof. reflexivity. Qed.

Example scenario_bad_date :
  status (post_diary init (lit "not-a-date") may_first_body).2 = 400.
Proof. reflexivity. Qed.

Example scenario_home :
  getHaveArrays (diaryByDate example_state) =
    ([lit "2024-05-01"; lit "2024-05-02"], [lit "2024-05-01"]).
Proof. vm_compute. reflexivity. Qed.

Example scenario_signup_twice :
  status (post_SignUp ascii_lower example_ToString
            (post_SignUp ascii_lower example_ToString init
               (signup_body "Ann@Example.com" "Ann" "pw")).1
            (signup_body " ann@example.COM " "Ann B" "other")).2 = 409.
Proof. vm_compute. reflexivity. Qed.

(** ** Instances *)

Lemma normalizeDate_contract_witness :
  lit " 2024-13-99 " ≠ [] ∧
  date_shape (trim (lit " 2024-13-99 ")) ∧
  normalizeDate (VStr (lit " 2024-13-99 ")) = Some (lit "2024-13-99").
Proof.
  assert (date_shape (trim (lit " 2024-13-99 "))) as Hshape
    by (apply date_re_test_iff; reflexivity).
  split_and!; [discriminate | exact Hshape |].
  exact (proj1 (normalizeDate_contract (VStr (lit " 2024-13-99 ")))
           (lit " 2024-13-99 ") eq_refl ltac:(discriminate) Hshape).
Defined.

Lemma post_then_get_witness :
  normalizeDate (VStr (lit " 2024-05-01 ")) = Some (lit "2024-05-01") ∧
  normalizeDate (VStr (lit "2024-05-01")) = Some (lit "2024-05-01") ∧
  (get_diary (post_diary init (lit " 2024-05-01 ") may_first_body).1
     (lit "2024-05-01")).2 =
    json (PEntry
      {| Entry.todo :=
           str_array (normalizeTodo (body_field may_first_body "todo"));
         Entry.contents :=
           VStr (text_field (body_field may_first_body "contents"));
         Entry.thanks :=
           VStr (text_field (body_field may_first_body "thanks")) |}).
Proof.
  split_and!; [reflexivity | reflexivity |].
  exact (post_then_get init (lit " 2024-05-01 ") (lit "2024-05-01")
           (lit "2024-05-01") may_first_body eq_refl eq_refl).
Defined.

Lemma put_diary_merge_witness :
  normalizeDate (VStr (lit "2024-05-01")) = Some (lit "2024-05-01") ∧
  ∃ e,
    map_get (lit "2024-05-01")
      (diaryByDate (put_diary example_state (lit "2024-05-01")
                      thanks_only_body).1) = Some e ∧
    Entry.todo e = str_array [lit "a"; lit "b"; lit "c"] ∧
    Entry.contents e = VStr (lit "hi") ∧
    Entry.thanks e = VStr (lit "grateful").
Proof.
  split; [reflexivity|].
  destruct (put_diary_merge example_state (lit "2024-05-01") (lit "2024-05-01")
              thanks_only_body eq_refl)
    as ((e & r & He & Hr & Ht & Hc & Hk & _) & _).
  exists e. split; [exact He|].
  rewrite Ht, Hc, Hk. injection Hr as <-.
  split_and!; vm_compute; reflexivity.
Defined.

Lemma getHaveArrays_summary_witness :
  reachable ascii_lower example_ToString example_state ∧
  StronglySorted lexico (getHaveArrays (diaryByDate example_state)).1 ∧
  (lit "2024-04-30" ∉ (getHaveArrays (diaryByDate example_state)).1) ∧
  (lit "2024-04-30" ∉ (getHaveArrays (diaryByDate example_state)).2).
Proof.
  assert (reachable ascii_lower example_ToString example_state) as Hr
    by (apply reachable_run; constructor).
  destruct (getHaveArrays_summary ascii_lower example_ToString example_state Hr)
    as (_ & _ & _ & Hsorted & _ & Hneither).
  destruct (Hneither (lit "2024-04-30") empty_entry eq_refl eq_refl eq_refl).
  split_and!; assumption.
Defined.

Lemma diary_entries_typed_witness :
  reachable ascii_lower example_ToString example_state ∧
  (lit "2024-05-02",
   {| Entry.todo := VArr []; Entry.contents := VStr (lit "rain");
      Entry.thanks := VStr [] |}) ∈ diaryByDate example_state ∧
  entry_typed {| Entry.todo := VArr []; Entry.contents := VStr (lit "rain");
                 Entry.thanks := VStr [] |}.
Proof.
  assert (reachable ascii_lower example_ToString example_state) as Hr
    by (apply reachable_run; constructor).
  assert ((lit "2024-05-02",
           {| Entry.todo := VArr []; Entry.contents := VStr (lit "rain");
              Entry.thanks := VStr [] |}) ∈ diaryByDate example_state) as Hin
    by apply list_elem_of_here.
  split_and!; [exact Hr | exact Hin |].
  exact (proj1 (diary_entries_typed ascii_lower example_ToString) _ _ _ Hr Hin).
Defined.

Lemma rejected_requests_keep_state_witness :
  status (handle ascii_lower example_ToString example_state
            (PutDiary (lit "2024-5-1") thanks_only_body)).2 = 400 ∧
  (handle ascii_lower example_ToString example_state
     (PutDiary (lit "2024-5-1") thanks_only_body)).1 = example_state.
Proof.
  split; [reflexivity|].
  exact (proj1 (rejected_requests_keep_state ascii_lower example_ToString)
           example_state (PutDiary (lit "2024-5-1") thanks_only_body)
           (or_introl eq_refl)).
Defined.

Lemma signUp_register_witness :
  has_non_whitespace (lit "Ann@Example.com") ∧
  has_non_whitespace (lit "Ann") ∧
  has_non_whitespace (lit "pw") ∧
  has_non_whitespace (lit " ann@example.COM ") ∧
  ascii_lower (trim (lit " ann@example.COM "))
    = ascii_lower (trim (lit "Ann@Example.com")) ∧
  status (post_SignUp ascii_lower example_ToString
            (post_SignUp ascii_lower example_ToString init
               (signup_body "Ann@Example.com" "Ann" "pw")).1
            (signup_body " ann@example.COM " "Ann" "pw")).2 = 409.
Proof.
  assert (∀ c s, is_white_space c = false → has_non_whitespace (c :: s)) as Hw
    by (intros c s H; by apply Exists_cons_hd).
  assert (∀ c s, has_non_whitespace s → has_non_whitespace (c :: s)) as Hw'
    by (intros c s H; by apply Exists_cons_tl).
  assert (has_non_whitespace (lit "Ann@Example.com")) as H1 by (apply Hw; reflexivity).
  assert (has_non_whitespace (lit "Ann")) as H2 by (apply Hw; reflexivity).
  assert (has_non_whitespace (lit "pw")) as H3 by (apply Hw; reflexivity).
  assert (has_non_whitespace (lit " ann@example.COM ")) as H4
    by (apply Hw', Hw; reflexivity).
  split_and!; [exact H1 | exact H2 | exact H3 | exact H4 | reflexivity |].
  destruct (signUp_register ascii_lower example_ToString init
              (signup_body "Ann@Example.com" "Ann" "pw")
              (lit "Ann@Example.com") (lit "Ann") (lit "pw")
              eq_refl eq_refl eq_refl H1 H2 H3) as (_ & _ & _ & Hagain).
  rewrite (Hagain (signup_body " ann@example.COM " "Ann" "pw")
             (lit " ann@example.COM ") (lit "Ann") (lit "pw")
             eq_refl eq_refl eq_refl H4 H2 H3 eq_refl).
  reflexivity.
Defined.

Lemma get_diary_readonly_witness :
  normalizeDate (VStr (lit "1999-12-31")) = Some (lit "1999-12-31") ∧
  map_get (lit "1999-12-31") (diaryByDate example_state) = None ∧
  (get_diary example_state (lit "1999-12-31")).1 = example_state ∧
  (get_diary example_state (lit "1999-12-31")).2 =
    json (PEntry {| Entry.todo := VArr []; Entry.contents := VStr [];
                    Entry.thanks := VStr [] |}).
Proof.
  destruct (get_diary_readonly example_state (lit "1999-12-31"))
    as (Hsame & Habsent & _).
  destruct (Habsent (lit "1999-12-31") eq_refl eq_refl) as [Hres _].
  split_and!; [reflexivity | reflexivity | exact Hsame | exact Hres].
Defined.

(** C9 as the specification words it fails: an email that is a non-empty
    string of whitespace is answered 400, although no member is stored under
    its trimmed lower-case form, and no record is created. *)
Lemma signUp_blank_email_rejected :
  body_field (signup_body " " "Ann" "pw") "email" = VStr (lit " ") ∧
  body_field (signup_body " " "Ann" "pw") "name" = VStr (lit "Ann") ∧
  body_field (signup_body " " "Ann" "pw") "password" = VStr (lit "pw") ∧
  lit " " ≠ [] ∧ lit "Ann" ≠ [] ∧ lit "pw" ≠ [] ∧
  membersByEmail init !! ascii_lower (trim (lit " ")) = None ∧
  post_SignUp ascii_lower example_ToString init (signup_body " " "Ann" "pw") =
    (init, status_json 400 (PError "email, name, password are required")).
Proof. split_and!; done. Qed.

(** * Further properties of the helpers *)

Lemma trimStart_pad pre s :
  Forall (λ c, is_white_space c = true) pre → trimStart (pre ++ s) = trimStart s.
Proof. induction 1 as [|c pre Hc _ IH]; simpl; [done|]. by rewrite Hc. Qed.

Lemma trimEnd_pad s post :
  Forall (λ c, is_white_space c = true) post → trimEnd (s ++ post) = trimEnd s.
Proof.
  intros Hpost. induction s as [|c r IH]; simpl.
  - by apply trimEnd_nil_iff.
  - by rewrite IH.
Qed.

Lemma trim_pad_r s post :
  Forall (λ c, is_white_space c = true) post → trim (s ++ post) = trim s.
Proof.
  intros Hpost. unfold trim. induction s as [|c r IH]; simpl.
  - apply trimStart_nil_iff in Hpost. by rewrite Hpost.
  - destruct (is_white_space c); [done|].
    by rewrite app_comm_cons, trimEnd_pad.
Qed.

(** Whitespace around a string does not survive [trim]. *)
Lemma trim_pad pre s post :
  Forall (λ c, is_white_space c = true) pre →
  Forall (λ c, is_white_space c = true) post →
  trim (pre ++ s ++ post) = trim s.
Proof.
  intros Hpre Hpost. rewrite <- (trim_pad_r s post Hpost).
  unfold trim. by rewrite trimStart_pad.
Qed.

Lemma trim_elem s c : c ∈ trim s → c ∈ s.
Proof.
  destruct (trim_spec s) as (pre & post & E & _). intros Hc.
  rewrite E, !elem_of_app. auto.
Qed.

(** X1. [isValidString] accepts exactly the strings that have a character
    other than whitespace: the empty string, a string of blanks, [null],
    [undefined], numbers, booleans, arrays and objects are all rejected. *)
Theorem isValidString_accepts (v : JsVal) :
  (isValidString v = true ↔ ∃ s, v = VStr s ∧ has_non_whitespace s) ∧
  (isValidString v = false ↔
     (∀ s, v ≠ VStr s) ∨
     ∃ s, v = VStr s ∧ Forall (λ c, is_white_space c = true) s).
Proof.
  split; [apply isValidString_iff|].
  rewrite <- not_true_iff_false, isValidString_iff. split.
  - intros Hno. destruct v as [| | | |s| |]; try (left; intros s'; congruence).
    right. exists s. split; [done|].
    assert (¬ has_non_whitespace s) as Hn by (intros H; apply Hno; eauto).
    apply Forall_Exists_neg in Hn. eapply Forall_impl; [exact Hn|].
    simpl. intros c. by destruct (is_white_space c).
  - intros [Hns | (s & -> & Hall)] (s' & E & Hne).
    + by apply (Hns s').
    + injection E as <-. apply trimStart_nil_iff in Hall.
      assert (trim s = []) as Ht by (unfold trim; by rewrite Hall).
      by apply trim_nil_iff in Ht.
Qed.

(** X2. Whatever [normalizeDate] accepts is the trimmed input string, is ten
    characters of the shape four digits, hyphen, two digits, hyphen, two
    digits, and normalises to itself. *)
Theorem normalizeDate_result (v : JsVal) (d : list N) :
  normalizeDate v = Some d →
  (∃ s, v = VStr s ∧ d = trim s) ∧
  date_shape d ∧ length d = 10%nat ∧
  normalizeDate (VStr d) = Some d.
Proof.
  intros H. assert (∃ s, v = VStr s ∧ d = trim s ∧ date_re_test d = true)
    as (s & -> & -> & Hre).
  { unfold normalizeDate in H. destruct (isValidString v); simpl in H; [|done].
    destruct v as [| | | |s| |]; try done.
    destruct (date_re_test (trim s)) eqn:E; [|done].
    injection H as <-. eauto. }
  split_and!; [eauto | by apply date_re_test_iff | | by eapply normalizeDate_idem].
  apply date_re_test_iff in Hre as (y & m & dd & Hy & Hm & Hd & _ & _ & _ & ->).
  rewrite !length_app. simpl. lia.
Qed.

(** X3. Whitespace before and after the text is ignored by [isValidString]
    and by [normalizeDate]. *)
Theorem padding_ignored (pre s post : list N) :
  Forall (λ c, is_white_space c = true) pre →
  Forall (λ c, is_white_space c = true) post →
  isValidString (VStr (pre ++ s ++ post)) = isValidString (VStr s) ∧
  normalizeDate (VStr (pre ++ s ++ post)) = normalizeDate (VStr s).
Proof.
  intros Hpre Hpost. unfold normalizeDate, isValidString.
  by rewrite trim_pad.
Qed.

(** X4. Every item [normalizeTodo] returns is non-empty with no whitespace at
    either end; an item made from a string input contains no comma; and an
    array input never yields more items than it has elements. *)
Theorem normalizeTodo_items_clean (v : JsVal) :
  (∀ x, x ∈ normalizeTodo v →
        x ≠ [] ∧ trimmed x ∧ (∀ s, v = VStr s → comma ∉ x)) ∧
  (∀ xs, v = VArr xs → (length (normalizeTodo v) ≤ length xs)%nat).
Proof.
  split.
  - intros x Hx.
    pose proof (normalizeTodo_items v) as Hall. rewrite Forall_forall in Hall.
    destruct (Hall x Hx) as [Hne Htrim].
    split_and!; [done | rewrite <- Htrim; apply trim_trimmed |].
    intros s ->. simpl in Hx.
    apply list_elem_of_filter in Hx as [_ (p & -> & Hp)%list_elem_of_fmap].
    pose proof (split_no_sep comma s) as Hsep. rewrite Forall_forall in Hsep.
    intros Hc%trim_elem. by apply (Hsep p).
  - intros xs ->. simpl.
    etransitivity; [apply length_filter|]. by rewrite length_fmap.
Qed.

(** A string is normalised as the array of its comma-separated pieces. *)
Lemma normalizeTodo_string_as_array (s : list N) :
  normalizeTodo (VStr s) = normalizeTodo (str_array (split comma s)).
Proof.
  unfold str_array. simpl. f_equal.
  rewrite <- list_fmap_compose. by apply list_fmap_ext.
Qed.

(** X5. A normalised list of items without commas survives being sent as
    one comma-joined string. *)
Theorem normalizeTodo_join (items : list (list N)) :
  Forall (λ x, x ≠ [] ∧ trim x = x ∧ comma ∉ x) items →
  normalizeTodo (VStr (join comma items)) = items.
Proof.
  intros Hall. destruct items as [|x items]; [done|].
  simpl normalizeTodo. rewrite (split_unique comma _ (x :: items)); try done.
  - rewrite filter_length_pos.
    induction Hall as [|y ys (Hne & Htrim & _) _ IH]; [done|].
    rewrite fmap_cons, filter_cons, Htrim, decide_True by done. by rewrite IH.
  - eapply Forall_impl; [exact Hall|]. by intros y (_ & _ & ?).
Qed.

(** The digits of a date, made explicit. *)
Lemma date_shape_digits s :
  date_shape s →
  ∃ y1 y2 y3 y4 m1 m2 d1 d2,
    s = [y1; y2; y3; y4; hyphen; m1; m2; hyphen; d1; d2] ∧
    digit y1 ∧ digit y2 ∧ digit y3 ∧ digit y4 ∧
    digit m1 ∧ digit m2 ∧ digit d1 ∧ digit d2.
Proof.
  intros (y & m & d & Hy & Hm & Hd & Fy & Fm & Fd & ->).
  do 4 (destruct y as [|? y]; [done|]). destruct y; [|done].
  do 2 (destruct m as [|? m]; [done|]). destruct m; [|done].
  do 2 (destruct d as [|? d]; [done|]). destruct d; [|done].
  repeat match goal with H : Forall _ (_ :: _) |- _ =>
    apply Forall_cons in H as [? H] end.
  do 8 eexists. split; [reflexivity|]. split_and!; assumption.
Qed.

Lemma digit_split c : digit c → ∃ k, c = (48 + k)%N ∧ (k ≤ 9)%N.
Proof. unfold digit. intros H. exists (c - 48)%N. lia. Qed.

Lemma digit_value_add k : digit_value (48 + k) = k.
Proof. unfold digit_value. lia. Qed.

(** On normalised dates the order of [sort] is the order of the calendar. *)
Lemma date_order a b :
  date_shape a → date_shape b →
  str_ltb a b = true ↔ (date_value a < date_value b)%N.
Proof.
  intros (a1 & a2 & a3 & a4 & a5 & a6 & a7 & a8 & -> & Ha)%date_shape_digits
         (b1 & b2 & b3 & b4 & b5 & b6 & b7 & b8 & -> & Hb)%date_shape_digits.
  destruct_and!.
  repeat match goal with
         | H : digit _ |- _ => apply digit_split in H as (? & -> & ?)
         end.
  unfold date_value, date_ymd, hyphen. rewrite !digit_value_add.
  cbn [str_ltb]. change (45 <? 45)%N with false. cbv iota.
  repeat match goal with
         | |- (if (?x <? ?y)%N then _ else _) = true ↔ _ =>
             destruct (N.ltb_spec x y);
             [split; intros; (discriminate || reflexivity || lia)|]
         end.
  split; intros; (discriminate || lia).
Qed.

(** * Further properties of the diary routes *)

Lemma map_set_set k v1 v2 m : map_set k v2 (map_set k v1 m) = map_set k v2 m.
Proof.
  induction m as [|[k' v'] m IH]; simpl.
  - by rewrite decide_True.
  - destruct (decide (k = k')) as [->|Hne]; simpl.
    + by rewrite decide_True.
    + by rewrite decide_False, IH.
Qed.

Lemma map_set_length k v m :
  length (map_set k v m) =
    if decide (is_Some (map_get k m)) then length m else S (length m).
Proof.
  induction m as [|[k' v'] m IH]; cbn [map_set map_get length].
  - by destruct (decide (is_Some None)) as [[? ?]|].
  - destruct (decide (k = k')) as [->|Hne]; cbn [length].
    + rewrite decide_True; eauto.
    + rewrite IH. by destruct (decide (is_Some (map_get k m))).
Qed.

(** Membership in the two lists of [getHaveArrays], for a store with
    distinct keys. *)
Lemma getHaveArrays_elem m d :
  NoDup m.*1 →
  (d ∈ (getHaveArrays m).1 ↔
     ∃ e, map_get d m = Some e ∧ isValidString (Entry.contents e) = true) ∧
  (d ∈ (getHaveArrays m).2 ↔
     ∃ e, map_get d m = Some e ∧ nonEmptyArray (Entry.todo e) = true).
Proof.
  intros Hnd. rewrite getHaveArrays_filter. cbn [fst snd].
  rewrite !sort_perm, !list_elem_of_fmap. split; split.
  - intros ([d' e] & -> & Hf). apply list_elem_of_filter in Hf as [HP Hin].
    exists e. split; [by apply map_get_elem | done].
  - intros (e & He & HP). exists (d, e). split; [done|].
    apply list_elem_of_filter. split; [done | by apply map_get_Some_elem].
  - intros ([d' e] & -> & Hf). apply list_elem_of_filter in Hf as [HP Hin].
    exists e. split; [by apply map_get_elem | done].
  - intros (e & He & HP). exists (d, e). split; [done|].
    apply list_elem_of_filter. split; [done | by apply map_get_Some_elem].
Qed.

(** Both lists are strictly ascending and hold stored keys only. *)
Lemma getHaveArrays_sorted m :
  NoDup m.*1 →
  StronglySorted lexico (getHaveArrays m).1 ∧
  StronglySorted lexico (getHaveArrays m).2 ∧
  (getHaveArrays m).1 ⊆ m.*1 ∧ (getHaveArrays m).2 ⊆ m.*1.
Proof.
  intros Hnd. rewrite getHaveArrays_filter. cbn [fst snd].
  assert (∀ (P : list N * Entry.t → Prop) `{!∀ x, Decision (P x)},
            (filter P m).*1 `sublist_of` m.*1) as Hsub
    by (intros; apply fmap_sublist, sublist_filter).
  split_and!.
  - apply sorted_strict; [apply sort_sorted|]. rewrite sort_perm.
    eapply sublist_NoDup; [exact Hnd | apply Hsub].
  - apply sorted_strict; [apply sort_sorted|]. rewrite sort_perm.
    eapply sublist_NoDup; [exact Hnd | apply Hsub].
  - intros d. rewrite sort_perm. apply sublist_subseteq, Hsub.
  - intros d. rewrite sort_perm. apply sublist_subseteq, Hsub.
Qed.

Lemma map_set_absent k v m : map_get k m = None → map_set k v m = m ++ [(k, v)].
Proof.
  induction m as [|[k' v'] m IH]; simpl; [done|].
  destruct (decide (k = k')); [done|]. intros H. by rewrite IH.
Qed.

Lemma map_get_set_Some k v m d :
  is_Some (map_get d m) → is_Some (map_get d (map_set k v m)).
Proof.
  intros H. destruct (decide (k = d)) as [->|Hne].
  - rewrite map_get_set_eq. eauto.
  - by rewrite map_get_set_ne.
Qed.

Lemma nonEmptyArray_str_array items :
  nonEmptyArray (str_array items) = bool_decide (items ≠ []).
Proof.
  unfold str_array, nonEmptyArray. apply bool_decide_ext. rewrite length_fmap.
  destruct items; simpl; split; (done || lia).
Qed.

Lemma is_undefined_false v : v ≠ VUndefined → is_undefined v = false.
Proof. by destruct v. Qed.

Lemma normalizeDate_Some_shape v d : normalizeDate v = Some d → date_shape d.
Proof.
  unfold normalizeDate. destruct (isValidString v); simpl; [|done].
  destruct v as [| | | |s| |]; try done.
  destruct (date_re_test (trim s)) eqn:E; [|done].
  intros [= <-]. by apply date_re_test_iff.
Qed.

Lemma sorted_by_date l :
  Forall date_shape l → StronglySorted lexico l →
  StronglySorted (λ a b, (date_value a < date_value b)%N) l.
Proof.
  intros Hall. induction 1 as [|x l Hs IH Hx]; [constructor|].
  apply Forall_cons in Hall as [Hxs Hall]. constructor; [by apply IH|].
  rewrite Forall_forall in Hx, Hall. apply Forall_forall. intros y Hy.
  apply date_order; [done | by apply Hall |].
  apply str_ltb_lexico. by apply Hx.
Qed.

(** X6. [POST /diary/:date] with a valid date touches nothing but that
    date: every other date reads as before, the account stores and the
    counter are unchanged, and the number of stored dates grows by one
    exactly when the date was not stored yet. *)
Theorem post_diary_frame (st : State) (p d : list N) (body : JsVal) :
  normalizeDate (VStr p) = Some d →
  let st' := (post_diary st p body).1 in
  (∀ d', d' ≠ d →
         map_get d' (diaryByDate st') = map_get d' (diaryByDate st)) ∧
  nextMemberId st' = nextMemberId st ∧
  membersByEmail st' = membersByEmail st ∧
  loginState st' = loginState st ∧
  length (diaryByDate st') =
    (if decide (is_Some (map_get d (diaryByDate st)))
     then length (diaryByDate st) else S (length (diaryByDate st))).
Proof.
  intros Hd st'. subst st'. rewrite (post_diary_valid _ _ _ _ Hd).
  cbn [fst set_diary diaryByDate nextMemberId membersByEmail loginState].
  split_and!; try done.
  - intros d' Hne. by apply map_get_set_ne.
  - apply map_set_length.
Qed.

(** X7. The last write wins: a [POST] to a date makes any earlier [POST] or
    [PUT] to the same date irrelevant, state and answer alike; in
    particular repeating a [POST] changes nothing. *)
Theorem post_diary_overwrites (st : State) (p1 p2 d : list N) (b1 b2 : JsVal) :
  normalizeDate (VStr p1) = Some d →
  normalizeDate (VStr p2) = Some d →
  post_diary (post_diary st p1 b1).1 p2 b2 = post_diary st p2 b2 ∧
  post_diary (put_diary st p1 b1).1 p2 b2 = post_diary st p2 b2 ∧
  post_diary (post_diary st p2 b2).1 p2 b2 = post_diary st p2 b2.
Proof.
  intros H1 H2.
  rewrite (post_diary_valid _ _ _ _ H1), (put_diary_valid _ _ _ _ H1).
  rewrite !(post_diary_valid _ _ _ _ H2).
  cbn [fst set_diary diaryByDate nextMemberId membersByEmail loginState].
  by rewrite !map_set_set.
Qed.

(** X8. A [PUT] that provides all three fields does exactly what the [POST]
    with the same body does, whatever was stored before. *)
Theorem put_diary_full_is_post (st : State) (p : list N) (body : JsVal) :
  body_field body "todo" ≠ VUndefined →
  body_field body "contents" ≠ VUndefined →
  body_field body "thanks" ≠ VUndefined →
  put_diary st p body = post_diary st p body.
Proof.
  intros Ht Hc Hk. unfold put_diary, post_diary.
  destruct (normalizeDate (VStr p)) as [d|]; [|done]. cbv zeta.
  fold (body_field body "todo") (body_field body "contents")
       (body_field body "thanks").
  by rewrite !is_undefined_false.
Qed.

(** X9. A [PUT] that provides no field is not a no-op on a date that has no
    entry: it stores the empty entry for that date, after the dates already
    stored, and answers that the date has neither contents nor todos. *)
Theorem put_diary_creates_empty (st : State) (p d : list N) (body : JsVal) :
  normalizeDate (VStr p) = Some d →
  map_get d (diaryByDate st) = None →
  body_field body "todo" = VUndefined →
  body_field body "contents" = VUndefined →
  body_field body "thanks" = VUndefined →
  put_diary st p body =
    (set_diary st
       (diaryByDate st ++
        [(d, {| Entry.todo := VArr []; Entry.contents := VStr [];
                Entry.thanks := VStr [] |})]),
     json (PHave false false)).
Proof.
  intros Hd Hnone Ht Hc Hk. rewrite (put_diary_valid _ _ _ _ Hd). cbv zeta.
  rewrite Hnone. unfold merge_entry. rewrite Ht, Hc, Hk. simpl.
  by rewrite map_set_absent.
Qed.

(** X10. The two lists of [getHaveArrays] do not depend on the order in
    which the dates were written. *)
Theorem getHaveArrays_order_independent (m1 m2 : list (list N * Entry.t)) :
  m1 ≡ₚ m2 → getHaveArrays m1 = getHaveArrays m2.
Proof.
  intros Hperm. rewrite !getHaveArrays_filter.
  f_equal; symmetry; apply sort_unique;
    try (apply Sorted_merge_sort, _);
    by rewrite sort_perm, Hperm.
Qed.

Section Diary.

Variable toLowerCase : list N → list N.
Variable ToString : JsVal → list N.

Local Abbreviation handle := (handle toLowerCase ToString).
Local Abbreviation reachable := (reachable toLowerCase ToString).

(** X11. In a reachable state the flags that [POST] and [PUT] answer for a
    valid date agree with the summary afterwards: the date is listed in
    [haveContents] exactly when the answer says [haveContents: true], and
    in [haveTodos] exactly when it says [haveTodos: true]. *)
Theorem write_flags_agree_with_summary (st : State) (p d : list N) (body : JsVal) :
  reachable st →
  normalizeDate (VStr p) = Some d →
  (∃ hc ht,
      payload (post_diary st p body).2 = PHave hc ht ∧
      (hc = true ↔ d ∈ (getHaveArrays (diaryByDate (post_diary st p body).1)).1) ∧
      (ht = true ↔ d ∈ (getHaveArrays (diaryByDate (post_diary st p body).1)).2)) ∧
  (∃ hc ht,
      payload (put_diary st p body).2 = PHave hc ht ∧
      (hc = true ↔ d ∈ (getHaveArrays (diaryByDate (put_diary st p body).1)).1) ∧
      (ht = true ↔ d ∈ (getHaveArrays (diaryByDate (put_diary st p body).1)).2)).
Proof.
  intros Hr Hd. pose proof (reachable_diary_ok _ _ _ Hr) as [Hnd _].
  assert (∀ e,
    (isValidString (Entry.contents e) = true ↔
       d ∈ (getHaveArrays (map_set d e (diaryByDate st))).1) ∧
    (nonEmptyArray (Entry.todo e) = true ↔
       d ∈ (getHaveArrays (map_set d e (diaryByDate st))).2)) as Hflags.
  { intros e.
    destruct (getHaveArrays_elem (map_set d e (diaryByDate st)) d) as [Hc Ht];
      [by apply map_set_NoDup|].
    rewrite Hc, Ht, map_get_set_eq. split; split.
    - eauto.
    - by intros (e' & [= <-] & ?).
    - eauto.
    - by intros (e' & [= <-] & ?). }
  split.
  - rewrite (post_diary_valid _ _ _ _ Hd). cbn [fst snd set_diary diaryByDate].
    do 2 eexists. split; [reflexivity|].
    rewrite <- text_field_valid, <- nonEmptyArray_str_array.
    apply (Hflags (replace_entry body)).
  - rewrite (put_diary_valid _ _ _ _ Hd). cbn [fst snd set_diary diaryByDate].
    do 2 eexists. split; [reflexivity|]. apply Hflags.
Qed.

(** X12. In a reachable state every date that [GET /Home] lists is a
    normalised date, and both lists are in calendar order: earlier in the
    list means a smaller year, then month, then day. *)
Theorem summary_is_chronological (st : State) :
  reachable st →
  let haveContents := (getHaveArrays (diaryByDate st)).1 in
  let haveTodos := (getHaveArrays (diaryByDate st)).2 in
  Forall date_shape haveContents ∧ Forall date_shape haveTodos ∧
  StronglySorted (λ a b, (date_value a < date_value b)%N) haveContents ∧
  StronglySorted (λ a b, (date_value a < date_value b)%N) haveTodos.
Proof.
  intros Hr hc ht. pose proof (reachable_diary_ok _ _ _ Hr) as [Hnd Hall].
  destruct (getHaveArrays_sorted _ Hnd) as (Hs1 & Hs2 & Hk1 & Hk2).
  assert (Forall date_shape (diaryByDate st).*1) as Hkeys.
  { apply Forall_fmap. eapply Forall_impl; [exact Hall|].
    intros [d e] [Hd _]. simpl in *. by eapply normalizeDate_Some_shape. }
  rewrite Forall_forall in Hkeys.
  assert (Forall date_shape hc) as H1
    by (apply Forall_forall; intros d Hin; by apply Hkeys, Hk1).
  assert (Forall date_shape ht) as H2
    by (apply Forall_forall; intros d Hin; by apply Hkeys, Hk2).
  split_and!; try done; by apply sorted_by_date.
Qed.

(** X13. In a reachable state the stored dates are distinct and of the
    shape four digits, hyphen, two digits, hyphen, two digits; every stored
    todo item is non-empty with no whitespace at either end, and the stored
    contents and thanks have no whitespace at either end. *)
Theorem diary_entries_normalised (st : State) :
  reachable st →
  NoDup (diaryByDate st).*1 ∧
  ∀ d e, (d, e) ∈ diaryByDate st →
    date_shape d ∧
    ∃ items c t,
      e = {| Entry.todo := str_array items; Entry.contents := VStr c;
             Entry.thanks := VStr t |} ∧
      Forall (λ x, x ≠ [] ∧ trimmed x) items ∧ trimmed c ∧ trimmed t.
Proof.
  intros Hr. pose proof (reachable_diary_ok _ _ _ Hr) as [Hnd Hall].
  split; [done|]. intros d e Hin. rewrite Forall_forall in Hall.
  destruct (Hall _ Hin) as [Hd ((items & Ht & Hitems) & (c & Hc & Hct) & (t & Hk & Hkt))].
  simpl in *. split; [by eapply normalizeDate_Some_shape|].
  exists items, c, t. split_and!.
  - destruct e; simpl in *; by subst.
  - eapply Forall_impl; [exact Hitems|]. intros x [Hne Hx].
    split; [done|]. rewrite <- Hx. apply trim_trimmed.
  - rewrite <- Hct. apply trim_trimmed.
  - rewrite <- Hkt. apply trim_trimmed.
Qed.

(** X14. No request removes a stored date, only [POST] and [PUT] on
    [/diary/:date] change the diary at all, and those two change nothing
    else. *)
Theorem diary_only_grows (st : State) (req : Request) :
  (∀ d, is_Some (map_get d (diaryByDate st)) →
        is_Some (map_get d (diaryByDate (handle st req).1))) ∧
  (diaryByDate (handle st req).1 ≠ diaryByDate st →
   ∃ p body, req = PostDiary p body ∨ req = PutDiary p body) ∧
  (∀ p body, req = PostDiary p body ∨ req = PutDiary p body →
     nextMemberId (handle st req).1 = nextMemberId st ∧
     membersByEmail (handle st req).1 = membersByEmail st ∧
     loginState (handle st req).1 = loginState st).
Proof.
  pose proof (account_routes_diary toLowerCase ToString st req) as Hframe.
  split_and!.
  - intros d Hd. destruct req; try (by rewrite Hframe); simpl.
    + unfold post_diary. case_match; [|done]. by apply map_get_set_Some.
    + unfold put_diary. case_match; [|done]. by apply map_get_set_Some.
  - intros Hne. destruct req; try (by destruct Hne); eauto.
  - intros p body [-> | ->]; simpl.
    + unfold post_diary. by case_match.
    + unfold put_diary. by case_match.
Qed.

End Diary.

(** * Further properties of the account routes *)

Lemma effect_accounts_ok st st' : effect st st' → accounts_ok st → accounts_ok st'.
Proof.
  intros Heff (Hdom & Hflag & Hnext & Hmem & Hinj).
  destruct Heff as [st|st d|st key name pw flag Hnone Hf|st key flag Hkey Hf
                   |st key m name Hm Hblank]; unfold accounts_ok;
    cbn [with_login set_diary nextMemberId membersByEmail loginState diaryByDate].
  - done.
  - done.
  - split_and!.
    + by rewrite !dom_insert_L, Hdom.
    + intros k v [[<- <-]|[? H]]%lookup_insert_Some; eauto.
    + rewrite map_size_insert_None by done. lia.
    + intros k m [[<- <-]|[? H]]%lookup_insert_Some; cbn.
      * split; [done | lia].
      * destruct (Hmem _ _ H). split; [done | lia].
    + intros k1 k2 m1 m2 [[<- <-]|[? H1]]%lookup_insert_Some
                         [[<- <-]|[? H2]]%lookup_insert_Some; cbn; try done.
      * intros Hid. destruct (Hmem _ _ H2). lia.
      * intros Hid. destruct (Hmem _ _ H1). lia.
      * eauto.
  - assert (key ∈ dom (loginState st)) as Hin.
    { destruct Hkey as [H|H]; [rewrite Hdom|]; by apply elem_of_dom. }
    split_and!; try done.
    + rewrite dom_insert_L, <- Hdom. apply subseteq_union_1_L.
      by apply singleton_subseteq_l.
    + intros k v [[<- <-]|[? H]]%lookup_insert_Some; eauto.
  - assert (key ∈ dom (membersByEmail st)) as Hin by (apply elem_of_dom; eauto).
    destruct (Hmem _ _ Hm) as [He Hid].
    split_and!.
    + rewrite !dom_insert_L, Hdom. done.
    + intros k v [[<- <-]|[? H]]%lookup_insert_Some; eauto.
    + rewrite map_size_insert_Some by eauto. done.
    + intros k m' [[<- <-]|[? H]]%lookup_insert_Some; cbn; eauto.
    + intros k1 k2 m1 m2 [[<- <-]|[? H1]]%lookup_insert_Some
                         [[<- <-]|[? H2]]%lookup_insert_Some; cbn; try done.
      * intros Hid'. eapply Hinj; eauto.
      * intros Hid'. eapply Hinj; eauto.
      * eauto.
Qed.

Section Accounts.

Variable toLowerCase : list N → list N.
Variable ToString : JsVal → list N.

Local Abbreviation handle := (handle toLowerCase ToString).
Local Abbreviation reachable := (reachable toLowerCase ToString).
Local Abbreviation post_SignUp := (post_SignUp toLowerCase ToString).
Local Abbreviation post_Login := (post_Login toLowerCase ToString).
Local Abbreviation post_auth_google := (post_auth_google toLowerCase ToString).
Local Abbreviation post_Home := (post_Home toLowerCase).

(** What [POST /Login] does once both fields are valid strings. *)
Lemma post_Login_valid st body e pw :
  body_field body "email" = VStr e →
  body_field body "password" = VStr pw →
  has_non_whitespace e → has_non_whitespace pw →
  post_Login st body =
    let key := toLowerCase (trim e) in
    match membersByEmail st !! key with
    | Some member =>
        if decide (String_password (Member.password member) = pw)
        then (with_login st (<[key := 1]> (loginState st)),
              json (PLogin (greeting (Member.name member)) 1))
        else (st, status_json 401 (PLoginError "invalid credentials" 0))
    | None => (st, status_json 401 (PLoginError "invalid credentials" 0))
    end.
Proof.
  intros He Hp Ve Vp. unfold post_Login.
  fold (body_field body "email") (body_field body "password").
  rewrite He, Hp, !isValidString_text by done. cbn [negb orb str_of]. cbv zeta.
  destruct (membersByEmail st !! toLowerCase (trim e)) as [m|]; [|done].
  cbn [String_].
  destruct (decide (String_password (Member.password m) = pw)) as [Heq|Hne].
  - by rewrite bool_decide_false by (by intros ?).
  - by rewrite bool_decide_true.
Qed.

(** What [POST /auth/google] does once its checks have passed. *)
Lemma post_auth_google_verified st body env tokenRes userRes email name :
  google_verified body env tokenRes userRes email name →
  post_auth_google st body env tokenRes userRes =
    let key := toLowerCase (String_ ToString email) in
    match membersByEmail st !! key with
    | None =>
        let member :=
          {| Member.memberId := nextMemberId st;
             Member.name := google_displayName name;
             Member.email := key; Member.password := None |} in
        ({| nextMemberId := nextMemberId st + 1;
            membersByEmail := <[key := member]> (membersByEmail st);
            loginState := <[key := 1]> (loginState st);
            diaryByDate := diaryByDate st |},
         json (PGoogle (greeting (google_displayName name)) 1
                 (nextMemberId st) key))
    | Some m =>
        if isValidString (VStr (Member.name m))
        then (with_login st (<[key := 1]> (loginState st)),
              json (PGoogle (greeting (Member.name m)) 1
                      (Member.memberId m) (Member.email m)))
        else
          ({| nextMemberId := nextMemberId st;
              membersByEmail :=
                <[key := renamed m (google_displayName name)]> (membersByEmail st);
              loginState := <[key := 1]> (loginState st);
              diaryByDate := diaryByDate st |},
           json (PGoogle (greeting (google_displayName name)) 1
                   (Member.memberId m) (Member.email m)))
    end.
Proof.
  intros (Hcode & H1 & H2 & H3 & td & ud & -> & Htok & -> & Hemail & Hname & Htruthy).
  unfold post_auth_google.
  fold (body_field body "code") (body_field td "access_token")
       (body_field ud "email") (body_field ud "name").
  rewrite Hcode, H1, H2, H3, Htok, Hemail, Hname, Htruthy.
  cbn [negb orb]. cbv zeta. fold (google_displayName name).
  destruct (membersByEmail st !! toLowerCase (String_ ToString email)) as [m|] eqn:Hm.
  - destruct (isValidString (VStr (Member.name m))); cbn [negb]; done.
  - cbn [nextMemberId membersByEmail loginState diaryByDate Member.name
         Member.memberId Member.email].
    by rewrite insert_insert_eq.
Qed.

Lemma handle_effect st req : effect st (handle st req).1.
Proof.
  destruct req as [|body|body|body env tokenRes userRes|body| |p body|p|p body];
    simpl.
  - constructor.
  - unfold post_SignUp. destruct (_ || _); [constructor|]. cbv zeta.
    destruct (bool_decide _) eqn:E; [constructor|]. cbn [fst].
    apply bool_decide_eq_false in E. apply eq_None_not_Some in E.
    apply effect_register; [done | by left].
  - unfold post_Login. destruct (_ || _); [constructor|]. cbv zeta.
    destruct (membersByEmail st !! _) as [m|] eqn:E; [|constructor].
    destruct (bool_decide _); [constructor|]. cbn [fst].
    apply (effect_flag st _ 1); [left; eauto | by right].
  - unfold post_auth_google.
    destruct (negb _); [constructor|].
    destruct (_ || _); [constructor|]. cbv zeta.
    destruct tokenRes as [td|]; [|constructor].
    destruct (negb _); [constructor|].
    destruct userRes as [ud|]; [|constructor].
    destruct (negb _); [constructor|].
    destruct (membersByEmail st !! _) as [m|] eqn:E.
    + destruct (negb _) eqn:Hb; cbn [fst nextMemberId membersByEmail loginState diaryByDate].
      * apply negb_true_iff in Hb. by apply (effect_rename st _ m).
      * apply (effect_flag st _ 1); [left; eauto | by right].
    + cbn [fst nextMemberId membersByEmail loginState diaryByDate].
      rewrite insert_insert_eq. apply effect_register; [done | by right].
  - unfold post_Home. destruct (isValidString _); [|constructor]. cbv zeta.
    destruct (bool_decide _) eqn:E; [|constructor]. cbn [fst].
    apply bool_decide_eq_true in E.
    apply (effect_flag st _ 0); [by right | by left].
  - unfold get_Home. destruct (getHaveArrays _). constructor.
  - unfold post_diary. destruct (normalizeDate _); constructor.
  - unfold get_diary. destruct (normalizeDate _); constructor.
  - unfold put_diary. destruct (normalizeDate _); constructor.
Qed.

Lemma reachable_accounts_ok st : reachable st → accounts_ok st.
Proof.
  induction 1 as [|st req _ IH].
  - unfold accounts_ok, init. cbn. split_and!; done.
  - eapply effect_accounts_ok; [apply handle_effect | done].
Qed.


(** X15. A request that is not answered 200 leaves the whole state as it
    was, on every route. *)
Theorem failed_requests_keep_state (st : State) (req : Request) :
  status (handle st req).2 ≠ 200 → (handle st req).1 = st.
Proof.
  destruct req; simpl;
    [ unfold get_root | unfold post_SignUp | unfold post_Login
    | unfold post_auth_google | unfold post_Home | unfold get_Home
    | unfold post_diary | unfold get_diary | unfold put_diary ];
    repeat case_match; simplify_eq; cbn; try done;
    intros H; by destruct H.
Qed.

(** X16. With [email] and [password] valid strings, [POST /Login] answers
    200 exactly when a member is stored under the trimmed, lower-cased email
    and [String(member.password)] equals the password as given, untrimmed.
    It then sets that key's login flag to 1 and greets the member by name;
    otherwise it answers 401 and changes nothing. *)
Theorem login_outcome (st : State) (body : JsVal) (e pw : list N) :
  body_field body "email" = VStr e →
  body_field body "password" = VStr pw →
  has_non_whitespace e → has_non_whitespace pw →
  let key := toLowerCase (trim e) in
  let r := post_Login st body in
  (status r.2 = 200 ↔
     ∃ m, membersByEmail st !! key = Some m ∧
          String_password (Member.password m) = pw) ∧
  (∀ m, membersByEmail st !! key = Some m →
        String_password (Member.password m) = pw →
        r = (with_login st (<[key := 1]> (loginState st)),
             json (PLogin (greeting (Member.name m)) 1))) ∧
  (status r.2 ≠ 200 →
   r = (st, status_json 401 (PLoginError "invalid credentials" 0))).
Proof.
  intros He Hp Ve Vp key r. subst r.
  rewrite (post_Login_valid _ _ _ _ He Hp Ve Vp). cbv zeta. fold key.
  destruct (membersByEmail st !! key) as [m|] eqn:Hm.
  - destruct (decide (String_password (Member.password m) = pw)) as [Heq|Hne].
    + split_and!; [split; eauto | by intros m' [= <-] _ | by intros H].
    + split_and!; [split; [done|] | | done].
      * by intros (m' & [= <-] & ?).
      * by intros m' [= <-] ?.
  - split_and!; [split; [done|] | done | done].
    by intros (m' & ? & _).
Qed.

(** X17. After a sign-up that created an account, a login with an email of
    the same trimmed lower-case form succeeds exactly with the password
    that was signed up, compared character by character. *)
Theorem signUp_then_login (st : State) (body body2 : JsVal) (e n pw e2 pw2 : list N) :
  body_field body "email" = VStr e →
  body_field body "name" = VStr n →
  body_field body "password" = VStr pw →
  has_non_whitespace e → has_non_whitespace n → has_non_whitespace pw →
  membersByEmail st !! toLowerCase (trim e) = None →
  body_field body2 "email" = VStr e2 →
  body_field body2 "password" = VStr pw2 →
  has_non_whitespace e2 → has_non_whitespace pw2 →
  toLowerCase (trim e2) = toLowerCase (trim e) →
  let st1 := (post_SignUp st body).1 in
  (pw2 = pw →
   post_Login st1 body2 =
     (with_login st1 (<[toLowerCase (trim e) := 1]> (loginState st1)),
      json (PLogin (greeting (trim n)) 1))) ∧
  (pw2 ≠ pw →
   post_Login st1 body2 =
     (st1, status_json 401 (PLoginError "invalid credentials" 0))).
Proof.
  intros He Hn Hp Ve Vn Vp Hnone He2 Hp2 Ve2 Vp2 Hkey st1. subst st1.
  rewrite (post_SignUp_valid _ _ _ _ _ _ _ He Hn Hp Ve Vn Vp). cbv zeta.
  rewrite Hnone, bool_decide_false by (by intros [? ?]). cbn [fst].
  rewrite (post_Login_valid _ _ _ _ He2 Hp2 Ve2 Vp2). cbv zeta.
  cbn [membersByEmail]. rewrite Hkey, lookup_insert_eq.
  cbn [Member.password Member.name String_password].
  split; intros H.
  - by rewrite decide_True.
  - by rewrite decide_False by (by intros ?).
Qed.

(** X18. An account created by the Google login is stored with the password
    [null], and [POST /Login] compares [String(null)]: a login to such an
    account succeeds exactly with the password ["null"]. *)
Theorem google_account_password (st : State) (body : JsVal) (env : GoogleEnv)
    (tokenRes userRes : Outcome) (email name body2 : JsVal) (e2 pw2 : list N) :
  google_verified body env tokenRes userRes email name →
  membersByEmail st !! toLowerCase (String_ ToString email) = None →
  body_field body2 "email" = VStr e2 →
  body_field body2 "password" = VStr pw2 →
  has_non_whitespace e2 → has_non_whitespace pw2 →
  toLowerCase (trim e2) = toLowerCase (String_ ToString email) →
  let st1 := (post_auth_google st body env tokenRes userRes).1 in
  status (post_Login st1 body2).2 = 200 ↔ pw2 = lit "null".
Proof.
  intros Hv Hnone He2 Hp2 Ve2 Vp2 Hkey st1. subst st1.
  rewrite (post_auth_google_verified _ _ _ _ _ _ _ Hv). cbv zeta.
  rewrite Hnone. cbn [fst].
  rewrite (post_Login_valid _ _ _ _ He2 Hp2 Ve2 Vp2). cbv zeta.
  cbn [membersByEmail]. rewrite Hkey, lookup_insert_eq.
  cbn [Member.password String_password].
  destruct (decide (lit "null" = pw2)) as [<-|Hne]; [done|].
  split; [done | congruence].
Qed.


(** X19. [POST /Home] always answers [{isLogined: 0}]. It changes nothing
    but the login flag of the trimmed, lower-cased email, and that only when
    the flag exists: it never creates a flag, and an email that is missing,
    blank or unknown leaves the state as it was. Logging out twice is
    logging out once. *)
Theorem logout_effect (st : State) (body : JsVal) :
  let r := post_Home st body in
  r.2 = json (PLogout 0) ∧
  nextMemberId r.1 = nextMemberId st ∧
  membersByEmail r.1 = membersByEmail st ∧
  diaryByDate r.1 = diaryByDate st ∧
  dom (loginState r.1) = dom (loginState st) ∧
  (∀ e, body_field body "email" = VStr e → has_non_whitespace e →
        is_Some (loginState st !! toLowerCase (trim e)) →
        loginState r.1 = <[toLowerCase (trim e) := 0]> (loginState st)) ∧
  ((∀ e, body_field body "email" = VStr e → has_non_whitespace e →
         loginState st !! toLowerCase (trim e) = None) →
   r.1 = st) ∧
  post_Home r.1 body = r.
Proof.
  intros r. subst r. unfold post_Home.
  fold (body_field body "email").
  destruct (isValidString (body_field body "email")) eqn:Hv; cbv zeta.
  - apply isValidString_iff in Hv as (e & He & Hne). rewrite He. cbn [str_of].
    destruct (bool_decide (is_Some (loginState st !! toLowerCase (trim e))))
      eqn:Hhas; cbn [fst snd nextMemberId membersByEmail loginState diaryByDate].
    + apply bool_decide_eq_true in Hhas.
      rewrite bool_decide_true by (rewrite lookup_insert_eq; eauto).
      split_and!; try done.
      * rewrite dom_insert_L. apply subseteq_union_1_L.
        by apply singleton_subseteq_l, elem_of_dom.
      * by intros e' [= <-] _ _.
      * intros Hnone. rewrite (Hnone e eq_refl Hne) in Hhas. by destruct Hhas.
      * cbn. by rewrite insert_insert_eq.
    + rewrite Hhas. split_and!; try done.
      intros e' [= <-] _ Hsome. apply bool_decide_eq_false in Hhas. done.
  - split_and!; try done.
    intros e He Hne. rewrite He in Hv.
    by rewrite isValidString_text in Hv.
Qed.

(** X20. [POST /auth/google] answers 200 exactly when the body carries a
    valid [code], the three environment variables are set, the token call
    resolved with a truthy [access_token] and the user-info call resolved
    with a truthy [email]. *)
Theorem google_login_status (st : State) (body : JsVal) (env : GoogleEnv)
    (tokenRes userRes : Outcome) :
  status (post_auth_google st body env tokenRes userRes).2 = 200 ↔
  ∃ email name, google_verified body env tokenRes userRes email name.
Proof.
  split.
  - unfold post_auth_google, google_verified.
    fold (body_field body "code").
    destruct (isValidString (body_field body "code")); [|done].
    destruct (isValidString (GOOGLE_CLIENT_ID env)); [|done].
    destruct (isValidString (GOOGLE_CLIENT_SECRET env)); [|done].
    destruct (isValidString (GOOGLE_REDIRECT_URI env)); [|done].
    cbn [negb orb]. cbv zeta.
    destruct tokenRes as [td|]; [|done].
    fold (body_field td "access_token").
    destruct (truthy (body_field td "access_token")) eqn:Htok; [|done].
    destruct userRes as [ud|]; [|done].
    fold (body_field ud "email") (body_field ud "name").
    destruct (truthy (body_field ud "email")) eqn:Hemail; [|done].
    intros _. exists (body_field ud "email"), (body_field ud "name").
    split_and!; try done. by exists td, ud.
  - intros (email & name & Hv).
    rewrite (post_auth_google_verified _ _ _ _ _ _ _ Hv). cbv zeta.
    by repeat case_match.
Qed.

(** X21. A Google login that got through sets the login flag of the
    lower-cased email to 1 and leaves the diary alone. For a new email it
    creates a member with the current counter as id, the display name and
    no password, and advances the counter. An existing member keeps its id,
    email and password, and its name too unless that name is blank, in
    which case it becomes the display name; no other member is touched. *)
Theorem google_login_effect (st : State) (body : JsVal) (env : GoogleEnv)
    (tokenRes userRes : Outcome) (email name : JsVal) :
  google_verified body env tokenRes userRes email name →
  let key := toLowerCase (String_ ToString email) in
  let st' := (post_auth_google st body env tokenRes userRes).1 in
  loginState st' = <[key := 1]> (loginState st) ∧
  diaryByDate st' = diaryByDate st ∧
  (∀ k, k ≠ key → membersByEmail st' !! k = membersByEmail st !! k) ∧
  (membersByEmail st !! key = None →
     nextMemberId st' = nextMemberId st + 1 ∧
     membersByEmail st' !! key =
       Some {| Member.memberId := nextMemberId st;
               Member.name := google_displayName name;
               Member.email := key; Member.password := None |}) ∧
  (∀ m, membersByEmail st !! key = Some m →
     nextMemberId st' = nextMemberId st ∧
     membersByEmail st' !! key =
       Some (if isValidString (VStr (Member.name m)) then m
             else renamed m (google_displayName name))).
Proof.
  intros Hv key st'. subst st'.
  rewrite (post_auth_google_verified _ _ _ _ _ _ _ Hv). cbv zeta. fold key.
  destruct (membersByEmail st !! key) as [m|] eqn:Hm.
  - destruct (isValidString (VStr (Member.name m))) eqn:Hname;
      cbn [fst with_login nextMemberId membersByEmail loginState diaryByDate];
      split_and!; try done.
    + intros m' [= <-]. by rewrite Hname.
    + intros k Hne. by rewrite lookup_insert_ne.
    + intros m' [= <-]. by rewrite Hname, lookup_insert_eq.
  - cbn [fst nextMemberId membersByEmail loginState diaryByDate].
    split_and!; try done.
    + intros k Hne. by rewrite lookup_insert_ne.
    + intros _. by rewrite lookup_insert_eq.
Qed.

(** X22. In a reachable state a login flag exists exactly for the
    registered emails and is 0 or 1; so a flag of 1 always belongs to a
    member. *)
Theorem login_flags_consistent (st : State) :
  reachable st →
  dom (loginState st) = dom (membersByEmail st) ∧
  (∀ k v, loginState st !! k = Some v → v = 0 ∨ v = 1) ∧
  (∀ k, loginState st !! k = Some 1 → is_Some (membersByEmail st !! k)).
Proof.
  intros (Hdom & Hflag & _)%reachable_accounts_ok.
  split_and!; [done | done |].
  intros k Hk. apply elem_of_dom. rewrite <- Hdom. apply elem_of_dom. eauto.
Qed.

(** X23. In a reachable state the member ids are exactly spent in order:
    the counter is one more than the number of members, every member is
    stored under its own email with an id from 1 to that number, and no two
    members share an id. *)
Theorem member_ids_consistent (st : State) :
  reachable st →
  nextMemberId st = 1 + Z.of_nat (size (membersByEmail st)) ∧
  (∀ k m, membersByEmail st !! k = Some m →
          Member.email m = k ∧
          1 ≤ Member.memberId m ≤ Z.of_nat (size (membersByEmail st))) ∧
  (∀ k1 k2 m1 m2,
      membersByEmail st !! k1 = Some m1 → membersByEmail st !! k2 = Some m2 →
      Member.memberId m1 = Member.memberId m2 → k1 = k2).
Proof.
  intros (_ & _ & Hnext & Hmem & Hinj)%reachable_accounts_ok.
  split_and!; [done | | done].
  intros k m Hk. destruct (Hmem _ _ Hk). split; [done | lia].
Qed.

(** X24. No request removes a member or changes a member's id, email or
    password; a name changes only if it was blank; and the counter never
    goes down. *)
Theorem members_only_grow (st : State) (req : Request) (k : list N) (m : Member.t) :
  membersByEmail st !! k = Some m →
  nextMemberId st ≤ nextMemberId (handle st req).1 ∧
  ∃ m', membersByEmail (handle st req).1 !! k = Some m' ∧
        Member.memberId m' = Member.memberId m ∧
        Member.email m' = Member.email m ∧
        Member.password m' = Member.password m ∧
        (Member.name m' = Member.name m ∨
         isValidString (VStr (Member.name m)) = false).
Proof.
  intros Hk. pose proof (handle_effect st req) as Heff.
  destruct Heff as [st|st d|st key name pw flag Hnone Hf|st key flag Hkey Hf
                   |st key m0 name Hm Hblank];
    cbn [with_login set_diary nextMemberId membersByEmail loginState].
  - split; [lia | eauto 10].
  - split; [lia | eauto 10].
  - split; [lia|]. exists m. rewrite lookup_insert_ne by congruence. eauto 10.
  - split; [lia | eauto 10].
  - split; [lia|]. destruct (decide (key = k)) as [->|Hne].
    + rewrite lookup_insert_eq. assert (m0 = m) as -> by congruence.
      exists (renamed m name). eauto 10.
    + rewrite lookup_insert_ne by done. eauto 10.
Qed.

End Accounts.

(** ** Instances of the further properties *)

Lemma normalizeDate_result_witness :
  normalizeDate (VStr (lit " 2024-02-30 ")) = Some (lit "2024-02-30") ∧
  date_shape (lit "2024-02-30") ∧
  normalizeDate (VStr (lit "2024-02-30")) = Some (lit "2024-02-30").
Proof.
  destruct (normalizeDate_result (VStr (lit " 2024-02-30 ")) (lit "2024-02-30")
              eq_refl) as (_ & Hshape & _ & Hfix).
  split_and!; [reflexivity | exact Hshape | exact Hfix].
Defined.

Lemma padding_ignored_witness :
  Forall (λ c, is_white_space c = true) [9; 32]%N ∧
  Forall (λ c, is_white_space c = true) [13; 10]%N ∧
  normalizeDate (VStr ([9; 32]%N ++ lit "2024-05-01" ++ [13; 10]%N))
    = normalizeDate (VStr (lit "2024-05-01")).
Proof.
  assert (Forall (λ c, is_white_space c = true) [9; 32]%N) as Hpre
    by (repeat constructor).
  assert (Forall (λ c, is_white_space c = true) [13; 10]%N) as Hpost
    by (repeat constructor).
  split_and!; [exact Hpre | exact Hpost |].
  exact (proj2 (padding_ignored _ (lit "2024-05-01") _ Hpre Hpost)).
Defined.

Lemma normalizeTodo_join_witness :
  Forall (λ x, x ≠ [] ∧ trim x = x ∧ comma ∉ x) [lit "milk"; lit "call Bob"] ∧
  normalizeTodo (VStr (join comma [lit "milk"; lit "call Bob"]))
    = [lit "milk"; lit "call Bob"].
Proof.
  assert (Forall (λ x, x ≠ [] ∧ trim x = x ∧ comma ∉ x)
            [lit "milk"; lit "call Bob"]) as Hall.
  { repeat apply Forall_cons_2; [| |apply Forall_nil_2];
      (split_and!; [discriminate | reflexivity |]);
      apply (bool_decide_unpack _); vm_compute; exact I. }
  split; [exact Hall | exact (normalizeTodo_join _ Hall)].
Defined.

Lemma post_diary_frame_witness :
  normalizeDate (VStr (lit "2024-05-03")) = Some (lit "2024-05-03") ∧
  map_get (lit "2024-05-01")
    (diaryByDate (post_diary example_state (lit "2024-05-03") may_first_body).1)
    = map_get (lit "2024-05-01") (diaryByDate example_state) ∧
  loginState (post_diary example_state (lit "2024-05-03") may_first_body).1
    = loginState example_state.
Proof.
  destruct (post_diary_frame example_state (lit "2024-05-03") (lit "2024-05-03")
              may_first_body eq_refl) as (Hother & _ & _ & Hlogin & _).
  split_and!; [reflexivity | | exact Hlogin].
  apply Hother. discriminate.
Defined.

Lemma post_diary_overwrites_witness :
  normalizeDate (VStr (lit " 2024-05-01")) = Some (lit "2024-05-01") ∧
  normalizeDate (VStr (lit "2024-05-01")) = Some (lit "2024-05-01") ∧
  post_diary (post_diary init (lit " 2024-05-01") thanks_only_body).1
    (lit "2024-05-01") may_first_body
  = post_diary init (lit "2024-05-01") may_first_body.
Proof.
  split_and!; [reflexivity | reflexivity |].
  exact (proj1 (post_diary_overwrites init (lit " 2024-05-01") (lit "2024-05-01")
                  (lit "2024-05-01") thanks_only_body may_first_body
                  eq_refl eq_refl)).
Defined.

Lemma put_diary_full_is_post_witness :
  body_field may_first_body "todo" ≠ VUndefined ∧
  body_field may_first_body "contents" ≠ VUndefined ∧
  body_field may_first_body "thanks" ≠ VUndefined ∧
  put_diary example_state (lit "2024-05-02") may_first_body
    = post_diary example_state (lit "2024-05-02") may_first_body.
Proof.
  assert (body_field may_first_body "todo" ≠ VUndefined) as H1 by discriminate.
  assert (body_field may_first_body "contents" ≠ VUndefined) as H2 by discriminate.
  assert (body_field may_first_body "thanks" ≠ VUndefined) as H3 by discriminate.
  split_and!; [exact H1 | exact H2 | exact H3 |].
  exact (put_diary_full_is_post example_state (lit "2024-05-02") may_first_body
           H1 H2 H3).
Defined.

Lemma put_diary_creates_empty_witness :
  normalizeDate (VStr (lit "1999-12-31")) = Some (lit "1999-12-31") ∧
  map_get (lit "1999-12-31") (diaryByDate example_state) = None ∧
  body_field (VObj []) "todo" = VUndefined ∧
  map_get (lit "1999-12-31")
    (diaryByDate (put_diary example_state (lit "1999-12-31") (VObj [])).1)
    = Some empty_entry.
Proof.
  split_and!; [reflexivity | reflexivity | reflexivity |].
  rewrite (put_diary_creates_empty example_state (lit "1999-12-31")
             (lit "1999-12-31") (VObj []) eq_refl eq_refl eq_refl eq_refl eq_refl).
  reflexivity.
Defined.

Lemma getHaveArrays_order_independent_witness :
  reverse (diaryByDate example_state) ≡ₚ diaryByDate example_state ∧
  getHaveArrays (reverse (diaryByDate example_state))
    = getHaveArrays (diaryByDate example_state).
Proof.
  assert (reverse (diaryByDate example_state) ≡ₚ diaryByDate example_state)
    as Hperm by apply reverse_Permutation.
  split; [exact Hperm | exact (getHaveArrays_order_independent _ _ Hperm)].
Defined.

Lemma write_flags_agree_with_summary_witness :
  reachable ascii_lower example_ToString example_state ∧
  normalizeDate (VStr (lit "2024-05-03")) = Some (lit "2024-05-03") ∧
  ∃ hc ht,
    payload (put_diary example_state (lit "2024-05-03") thanks_only_body).2
      = PHave hc ht ∧
    (hc = true ↔
       lit "2024-05-03" ∈
         (getHaveArrays
            (diaryByDate (put_diary example_state (lit "2024-05-03")
                            thanks_only_body).1)).1).
Proof.
  assert (reachable ascii_lower example_ToString example_state) as Hr
    by (apply reachable_run; constructor).
  split_and!; [exact Hr | reflexivity |].
  destruct (write_flags_agree_with_summary ascii_lower example_ToString
              example_state (lit "2024-05-03") (lit "2024-05-03")
              thanks_only_body Hr eq_refl) as [_ (hc & ht & Hp & Hc & _)].
  exists hc, ht. split; assumption.
Defined.

Lemma summary_is_chronological_witness :
  reachable ascii_lower example_ToString example_state ∧
  StronglySorted (λ a b, (date_value a < date_value b)%N)
    (getHaveArrays (diaryByDate example_state)).1.
Proof.
  assert (reachable ascii_lower example_ToString example_state) as Hr
    by (apply reachable_run; constructor).
  destruct (summary_is_chronological ascii_lower example_ToString example_state Hr)
    as (_ & _ & Hsorted & _).
  split; assumption.
Defined.

Lemma diary_entries_normalised_witness :
  reachable ascii_lower example_ToString example_state ∧
  NoDup (diaryByDate example_state).*1.
Proof.
  assert (reachable ascii_lower example_ToString example_state) as Hr
    by (apply reachable_run; constructor).
  split; [exact Hr|].
  exact (proj1 (diary_entries_normalised ascii_lower example_ToString
                  example_state Hr)).
Defined.

Lemma failed_requests_keep_state_witness :
  status (handle ascii_lower example_ToString example_account_state
            (PostLogin (login_body "bob@example.com" "letmein"))).2 ≠ 200 ∧
  (handle ascii_lower example_ToString example_account_state
     (PostLogin (login_body "bob@example.com" "letmein"))).1
    = example_account_state.
Proof.
  assert (status (handle ascii_lower example_ToString example_account_state
                    (PostLogin (login_body "bob@example.com" "letmein"))).2 ≠ 200)
    as Hstatus by (vm_compute; discriminate).
  split; [exact Hstatus|].
  exact (failed_requests_keep_state ascii_lower example_ToString _ _ Hstatus).
Defined.

Lemma non_whitespace_head c s :
  is_white_space c = false → has_non_whitespace (c :: s).
Proof. intros H. by apply Exists_cons_hd. Defined.

Lemma login_outcome_witness :
  has_non_whitespace (lit "bob@example.com") ∧
  has_non_whitespace (lit "hunter2") ∧
  post_Login ascii_lower example_ToString example_account_state
    (login_body "bob@example.com" "hunter2")
  = (with_login example_account_state
       (<[lit "bob@example.com" := 1]> (loginState example_account_state)),
     json (PLogin (greeting (lit "Bob")) 1)).
Proof.
  assert (has_non_whitespace (lit "bob@example.com")) as He
    by (apply non_whitespace_head; reflexivity).
  assert (has_non_whitespace (lit "hunter2")) as Hp
    by (apply non_whitespace_head; reflexivity).
  split_and!; [exact He | exact Hp |].
  destruct (login_outcome ascii_lower example_ToString example_account_state
              (login_body "bob@example.com" "hunter2")
              (lit "bob@example.com") (lit "hunter2") eq_refl eq_refl He Hp)
    as (_ & Hok & _).
  apply (Hok {| Member.memberId := 2; Member.name := lit "Bob";
                Member.email := lit "bob@example.com";
                Member.password := Some (lit "hunter2") |});
    vm_compute; reflexivity.
Defined.

Lemma signUp_then_login_witness :
  membersByEmail init !! ascii_lower (trim (lit "Ann@Example.com")) = None ∧
  ascii_lower (trim (lit " ANN@example.com "))
    = ascii_lower (trim (lit "Ann@Example.com")) ∧
  status (post_Login ascii_lower example_ToString
            (post_SignUp ascii_lower example_ToString init
               (signup_body "Ann@Example.com" "Ann" "pw")).1
            (login_body " ANN@example.com " "pw")).2 = 200 ∧
  status (post_Login ascii_lower example_ToString
            (post_SignUp ascii_lower example_ToString init
               (signup_body "Ann@Example.com" "Ann" "pw")).1
            (login_body " ANN@example.com " "pw ")).2 = 401.
Proof.
  assert (membersByEmail init !! ascii_lower (trim (lit "Ann@Example.com")) = None)
    as Hnone by apply lookup_empty.
  assert (has_non_whitespace (lit "Ann@Example.com")) as He
    by (apply non_whitespace_head; reflexivity).
  assert (has_non_whitespace (lit "Ann")) as Hn
    by (apply non_whitespace_head; reflexivity).
  assert (has_non_whitespace (lit "pw")) as Hp
    by (apply non_whitespace_head; reflexivity).
  assert (has_non_whitespace (lit "pw ")) as Hp'
    by (apply non_whitespace_head; reflexivity).
  assert (has_non_whitespace (lit " ANN@example.com ")) as He2
    by (apply Exists_cons_tl, non_whitespace_head; reflexivity).
  split_and!; [exact Hnone | reflexivity | |].
  - destruct (signUp_then_login ascii_lower example_ToString init
                (signup_body "Ann@Example.com" "Ann" "pw")
                (login_body " ANN@example.com " "pw")
                (lit "Ann@Example.com") (lit "Ann") (lit "pw")
                (lit " ANN@example.com ") (lit "pw")
                eq_refl eq_refl eq_refl He Hn Hp Hnone eq_refl eq_refl
                He2 Hp eq_refl) as [Hok _].
    rewrite (Hok eq_refl). reflexivity.
  - destruct (signUp_then_login ascii_lower example_ToString init
                (signup_body "Ann@Example.com" "Ann" "pw")
                (login_body " ANN@example.com " "pw ")
                (lit "Ann@Example.com") (lit "Ann") (lit "pw")
                (lit " ANN@example.com ") (lit "pw ")
                eq_refl eq_refl eq_refl He Hn Hp Hnone eq_refl eq_refl
                He2 Hp' eq_refl) as [_ Hbad].
    rewrite Hbad; [reflexivity | discriminate].
Defined.

Lemma example_google_verified :
  google_verified (VObj [(lit "code", VStr (lit "4/abc"))]) example_env
    (Resolved (VObj [(lit "access_token", VStr (lit "ya29"))]))
    (Resolved (VObj [(lit "email", VStr (lit "Cy@Example.com"));
                     (lit "name", VStr (lit "Cy"))]))
    (VStr (lit "Cy@Example.com")) (VStr (lit "Cy")).
Proof.
  split_and!; try reflexivity.
  do 2 eexists. split_and!; reflexivity.
Defined.

Lemma google_account_password_witness :
  membersByEmail init
    !! ascii_lower (String_ example_ToString (VStr (lit "Cy@Example.com"))) = None ∧
  status (post_Login ascii_lower example_ToString
            (handle ascii_lower example_ToString init
               (example_google "Cy@Example.com" "Cy")).1
            (login_body "cy@example.com" "null")).2 = 200.
Proof.
  assert (membersByEmail init
            !! ascii_lower (String_ example_ToString (VStr (lit "Cy@Example.com")))
          = None) as Hnone by apply lookup_empty.
  split; [exact Hnone|].
  assert (has_non_whitespace (lit "cy@example.com")) as He
    by (apply non_whitespace_head; reflexivity).
  assert (has_non_whitespace (lit "null")) as Hp
    by (apply non_whitespace_head; reflexivity).
  apply (google_account_password ascii_lower example_ToString init _ _ _ _ _ _
           (login_body "cy@example.com" "null")
           (lit "cy@example.com") (lit "null")
           example_google_verified Hnone eq_refl eq_refl He Hp eq_refl).
  reflexivity.
Defined.

Lemma google_login_effect_witness :
  loginState (handle ascii_lower example_ToString init
                (example_google "Cy@Example.com" "Cy")).1
    = <[lit "cy@example.com" := 1]> (loginState init) ∧
  nextMemberId (handle ascii_lower example_ToString init
                  (example_google "Cy@Example.com" "Cy")).1 = 2.
Proof.
  destruct (google_login_effect ascii_lower example_ToString init _ _ _ _ _ _
              example_google_verified) as (Hlogin & _ & _ & Hnew & _).
  split; [exact Hlogin|].
  destruct (Hnew (lookup_empty _)) as [Hnext _]. exact Hnext.
Defined.

Lemma login_flags_consistent_witness :
  reachable ascii_lower example_ToString example_account_state ∧
  dom (loginState example_account_state)
    = dom (membersByEmail example_account_state).
Proof.
  assert (reachable ascii_lower example_ToString example_account_state) as Hr
    by (apply reachable_run; constructor).
  split; [exact Hr|].
  exact (proj1 (login_flags_consistent ascii_lower example_ToString _ Hr)).
Defined.

Lemma member_ids_consistent_witness :
  reachable ascii_lower example_ToString example_account_state ∧
  nextMemberId example_account_state
    = 1 + Z.of_nat (size (membersByEmail example_account_state)).
Proof.
  assert (reachable ascii_lower example_ToString example_account_state) as Hr
    by (apply reachable_run; constructor).
  split; [exact Hr|].
  exact (proj1 (member_ids_consistent ascii_lower example_ToString _ Hr)).
Defined.

Lemma members_only_grow_witness :
  membersByEmail example_account_state !! lit "bob@example.com"
    = Some {| Member.memberId := 2; Member.name := lit "Bob";
              Member.email := lit "bob@example.com";
              Member.password := Some (lit "hunter2") |} ∧
  ∃ m', membersByEmail
          (handle ascii_lower example_ToString example_account_state
             (example_google "BOB@example.com" "Robert")).1
          !! lit "bob@example.com" = Some m' ∧
        Member.memberId m' = 2 ∧
        Member.password m' = Some (lit "hunter2").
Proof.
  assert (membersByEmail example_account_state !! lit "bob@example.com"
          = Some {| Member.memberId := 2; Member.name := lit "Bob";
                    Member.email := lit "bob@example.com";
                    Member.password := Some (lit "hunter2") |}) as Hk
    by (vm_compute; reflexivity).
  split; [exact Hk|].
  destruct (members_only_grow ascii_lower example_ToString example_account_state
              (example_google "BOB@example.com" "Robert") _ _ Hk)
    as (_ & m' & Hm' & Hid & _ & Hpw & _).
  exists m'. split_and!; assumption.
Defined.

(** The account scenario, run. *)
Example scenario_accounts :
  nextMemberId example_account_state = 4 ∧
  loginState example_account_state !! lit "ann@example.com" = Some 1 ∧
  loginState example_account_state !! lit "bob@example.com" = Some 0 ∧
  loginState example_account_state !! lit "cy@example.com" = Some 0 ∧
  Member.password <$> membersByEmail example_account_state !! lit "cy@example.com"
    = Some None.
Proof. vm_compute. done. Qed.
